(** * Roy: a shallow embedding of the simulation engine of [roy]

    Sources embedded here: [src/server_state.rs] ([ServerState] and its
    methods), [src/chat_completions.rs] (the chat-completions handler and its
    Protocol A stream) and [src/responses.rs] (the responses handler and its
    Protocol B stream).

    Conventions:
    - a [SystemTime] is a [Z] count of nanoseconds, a [Duration] an [N] count
      of nanoseconds;
    - [u32] / [u16] values are [N] and a [u32] addition wraps modulo 2^32
      (release-profile semantics);
    - Rust [String]s are Stdlib [string]s (byte strings);
    - the randomness ([rand::thread_rng]), the clock and the external crates
      ([lipsum], [tiktoken_rs], [serde_json]) are inputs of the model, gathered
      in the record [Env]. *)

From Stdlib Require Import String Ascii List ZArith NArith Lia Bool Sorted.
From Stdlib Require DecimalN HexadecimalN.
Import ListNotations.
Open Scope string_scope.

(* ------------------------------------------------------------------ *)
(** ** Machine integers and decimal rendering *)

Definition u32_modulus : N := 4294967296.

(** [a + b] on [u32] (wrapping). *)
Definition add_u32 (a b : N) : N := N.modulo (a + b) u32_modulus.

(** [u32::saturating_sub]: [N.sub] already saturates at 0. *)
Definition saturating_sub (a b : N) : N := N.sub a b.

Fixpoint uint_to_string (d : Decimal.uint) : string :=
  match d with
  | Decimal.Nil => EmptyString
  | Decimal.D0 d' => String "0" (uint_to_string d')
  | Decimal.D1 d' => String "1" (uint_to_string d')
  | Decimal.D2 d' => String "2" (uint_to_string d')
  | Decimal.D3 d' => String "3" (uint_to_string d')
  | Decimal.D4 d' => String "4" (uint_to_string d')
  | Decimal.D5 d' => String "5" (uint_to_string d')
  | Decimal.D6 d' => String "6" (uint_to_string d')
  | Decimal.D7 d' => String "7" (uint_to_string d')
  | Decimal.D8 d' => String "8" (uint_to_string d')
  | Decimal.D9 d' => String "9" (uint_to_string d')
  end.

(** [n.to_string()] for an unsigned integer. *)
Definition N_to_string (n : N) : string := uint_to_string (N.to_uint n).

(* ------------------------------------------------------------------ *)
(** ** Time *)

Definition nanos_per_sec : N := 1000000000.

(** [Duration::from_secs(s)] *)
Definition duration_from_secs (s : N) : N := s * nanos_per_sec.

(** [Duration::as_secs] (floor). *)
Definition duration_as_secs (d : N) : N := N.div d nanos_per_sec.

(** [Duration::from_secs(60)]: the window of the tracker. *)
Definition sixty_secs : N := duration_from_secs 60.

(** [a.duration_since(b).unwrap_or(Duration::ZERO)] *)
Definition duration_since_or_zero (a b : Z) : N :=
  if (b <=? a)%Z then Z.to_N (a - b) else 0%N.

(** [humantime::format_duration] on a whole number of seconds (the
    sub-second items are zero after [Duration::from_secs(d.as_secs())]). *)
Definition hm_item (started : bool) (name : string) (v : N) : bool * string :=
  if (v =? 0)%N then (started, EmptyString)
  else (true, (if started then " " else "") ++ N_to_string v ++ name).

Definition hm_item_plural (started : bool) (name : string) (v : N) : bool * string :=
  if (v =? 0)%N then (started, EmptyString)
  else (true, (if started then " " else "") ++ N_to_string v ++ name
              ++ (if (1 <? v)%N then "s" else "")).

Definition format_duration_secs (secs : N) : string :=
  if (secs =? 0)%N then "0s" else
  let years := N.div secs 31557600 in
  let ydays := N.modulo secs 31557600 in
  let months := N.div ydays 2630016 in
  let mdays := N.modulo ydays 2630016 in
  let days := N.div mdays 86400 in
  let day_secs := N.modulo mdays 86400 in
  let hours := N.div day_secs 3600 in
  let minutes := N.div (N.modulo day_secs 3600) 60 in
  let seconds := N.modulo day_secs 60 in
  let '(s1, o1) := hm_item_plural false "year" years in
  let '(s2, o2) := hm_item_plural s1 "month" months in
  let '(s3, o3) := hm_item_plural s2 "day" days in
  let '(s4, o4) := hm_item s3 "h" hours in
  let '(s5, o5) := hm_item s4 "m" minutes in
  let '(_, o6) := hm_item s5 "s" seconds in
  o1 ++ o2 ++ o3 ++ o4 ++ o5 ++ o6.

(* ------------------------------------------------------------------ *)
(** ** Configuration ([Args] of [src/lib.rs], the fields the core reads) *)

Record Args := mkArgs {
  response_length : option string;
  error_code : option N;   (* u16 *)
  error_rate : option N;   (* u32 *)
  rpm : N;                 (* u32 *)
  tpm : N                  (* u32 *)
}.

(** [ServerState]: the two timestamp queues ([VecDeque]), front first. *)
Record ServerState := mkServerState {
  args : Args;
  request_timestamps : list Z;
  token_usage_timestamps : list (Z * N)
}.

Definition set_request_timestamps (st : ServerState) (q : list Z) : ServerState :=
  mkServerState (args st) q (token_usage_timestamps st).

Definition set_token_usage_timestamps (st : ServerState) (q : list (Z * N))
  : ServerState :=
  mkServerState (args st) (request_timestamps st) q.

(* ------------------------------------------------------------------ *)
(** ** The sliding-window queues *)

(** The loop [while let Some(front) = timestamps.front() { if *front <
    sixty_seconds_ago { pop_front } else { break } }]. *)
Fixpoint prune_front (cutoff : Z) (q : list Z) : list Z :=
  match q with
  | [] => []
  | t :: q' => if (t <? cutoff)%Z then prune_front cutoff q' else q
  end.

(** The same loop on the token queue [(SystemTime, u32)]. *)
Fixpoint prune_front_tokens (cutoff : Z) (q : list (Z * N)) : list (Z * N) :=
  match q with
  | [] => []
  | (t, n) :: q' => if (t <? cutoff)%Z then prune_front_tokens cutoff q' else q
  end.

(** [now - Duration::from_secs(60)] *)
Definition sixty_seconds_ago (now : Z) : Z := (now - Z.of_N sixty_secs)%Z.

(** [ServerState::increment_request_count] *)
Definition increment_request_count (now : Z) (st : ServerState) : ServerState :=
  let timestamps := prune_front (sixty_seconds_ago now) (request_timestamps st) in
  set_request_timestamps st (timestamps ++ [now]).

(** [ServerState::add_token_usage] *)
Definition add_token_usage (now : Z) (tokens : N) (st : ServerState) : ServerState :=
  let timestamps :=
    prune_front_tokens (sixty_seconds_ago now) (token_usage_timestamps st) in
  set_token_usage_timestamps st (timestamps ++ [(now, tokens)]).

(** [token_timestamps.iter().map(|(_, tokens)| tokens).sum()] as [u32]. *)
Definition sum_tokens (q : list (Z * N)) : N :=
  fold_left (fun acc p => add_u32 acc (snd p)) q 0%N.

(** A [HeaderMap] as the list of its (name, value) pairs, in insertion order. *)
Definition HeaderMap := list (string * string).

(** [ServerState::get_rate_limit_headers]: it prunes both queues (it holds
    the locks and pops), so it also returns the new state. *)
Definition get_rate_limit_headers (now : Z) (st : ServerState)
  : HeaderMap * ServerState :=
  let cutoff := sixty_seconds_ago now in
  (* Requests logic *)
  let timestamps := prune_front cutoff (request_timestamps st) in
  let request_count := N.of_nat (length timestamps) in
  let limit := rpm (args st) in
  let remaining := saturating_sub limit request_count in
  let reset_duration :=
    if (request_count <? limit)%N then 0%N
    else match timestamps with
         | oldest :: _ => duration_since_or_zero (oldest + Z.of_N sixty_secs) now
         | [] => 0%N
         end in
  let reset_duration_rounded := duration_from_secs (duration_as_secs reset_duration) in
  (* Tokens logic *)
  let token_timestamps := prune_front_tokens cutoff (token_usage_timestamps st) in
  let current_token_usage := sum_tokens token_timestamps in
  let token_limit := tpm (args st) in
  let remaining_tokens := saturating_sub token_limit current_token_usage in
  let token_reset_duration :=
    if (current_token_usage <? token_limit)%N then 0%N
    else match token_timestamps with
         | (oldest_ts, _) :: _ =>
             duration_since_or_zero (oldest_ts + Z.of_N sixty_secs) now
         | [] => 0%N
         end in
  let token_reset_duration_rounded :=
    duration_from_secs (duration_as_secs token_reset_duration) in
  ([("x-ratelimit-limit-requests", N_to_string limit);
    ("x-ratelimit-remaining-requests", N_to_string remaining);
    ("x-ratelimit-reset-requests",
       format_duration_secs (duration_as_secs reset_duration_rounded));
    ("x-ratelimit-limit-tokens", N_to_string token_limit);
    ("x-ratelimit-remaining-tokens", N_to_string remaining_tokens);
    ("x-ratelimit-reset-tokens",
       format_duration_secs (duration_as_secs token_reset_duration_rounded))],
   mkServerState (args st) timestamps token_timestamps).

(* ------------------------------------------------------------------ *)
(** ** Fault injector *)

(** [ServerState::should_return_error]; [draw] is the value of
    [rng.gen_range(0..100)] (only drawn when both options are set). *)
Definition should_return_error (draw : N) (a : Args) : option N :=
  match error_code a, error_rate a with
  | Some code, Some rate => if (draw <? rate)%N then Some code else None
  | _, _ => None
  end.

(* ------------------------------------------------------------------ *)
(** ** Length resolver *)

Definition usize_bound : N := 18446744073709551616.  (* 2^64 *)

Definition digit_value (c : ascii) : option N :=
  let d := N.of_nat (nat_of_ascii c) in
  if ((48 <=? d)%N && (d <=? 57)%N)%bool then Some (d - 48)%N else None.

Fixpoint parse_digits (acc : N) (s : string) : option N :=
  match s with
  | EmptyString => Some acc
  | String c s' =>
      match digit_value c with
      | Some d =>
          let acc' := (acc * 10 + d)%N in
          if (acc' <? usize_bound)%N then parse_digits acc' s' else None
      | None => None
      end
  end.

(** [<usize as FromStr>::from_str]: empty input, a lone sign, a [-] sign,
    a non-digit or an overflow is an [Err]; a single leading [+] is allowed. *)
Definition parse_usize (s : string) : option N :=
  match s with
  | EmptyString => None
  | String c rest =>
      if ascii_dec c "+"%char then
        match rest with
        | EmptyString => None
        | _ => parse_digits 0 rest
        end
      else parse_digits 0 s
  end.

(** [s.parse().unwrap_or(d)] *)
Definition parse_usize_or (d : N) (s : string) : N :=
  match parse_usize s with Some n => n | None => d end.

(** [ServerState::get_response_length].  [gen_range_incl min max] is the
    value of [rand::thread_rng().gen_range(min..=max)]; that call panics on an
    empty range, which is the [None] result. *)
Definition get_response_length (gen_range_incl : N -> N -> N) (a : Args)
  : option N :=
  match response_length a with
  | Some length_str =>
      match index 0 ":" length_str with
      | Some pos =>
          let min := parse_usize_or 0 (substring 0 pos length_str) in
          let max := parse_usize_or 100
                       (substring (S pos) (String.length length_str - S pos) length_str) in
          if (min <=? max)%N then Some (gen_range_incl min max) else None
      | None => Some (parse_usize_or 0 length_str)
      end
  | None => Some 0%N
  end.

(* ------------------------------------------------------------------ *)
(** ** Content generator ([lipsum] crate and [generate_lorem_content]) *)

Definition is_sentence_end (c : ascii) : bool :=
  (Ascii.eqb c "." || Ascii.eqb c "!" || Ascii.eqb c "?")%bool.

Definition is_ascii_punctuation (c : ascii) : bool :=
  let n := nat_of_ascii c in
  ((33 <=? n) && (n <=? 47) || (58 <=? n) && (n <=? 64)
   || (91 <=? n) && (n <=? 96) || (123 <=? n) && (n <=? 126))%nat.

Definition ascii_to_upper (c : ascii) : ascii :=
  let n := nat_of_ascii c in
  if ((97 <=? n) && (n <=? 122))%nat then ascii_of_nat (n - 32) else c.

Definition capitalize (w : string) : string :=
  match w with
  | EmptyString => EmptyString
  | String c r => String (ascii_to_upper c) r
  end.

Definition last_char (s : string) : option ascii :=
  match list_ascii_of_string s with
  | [] => None
  | l => Some (last l " "%char)
  end.

Definition ends_with_sentence_end (s : string) : bool :=
  match last_char s with Some c => is_sentence_end c | None => false end.

Fixpoint drop_while_punct (l : list ascii) : list ascii :=
  match l with
  | [] => []
  | c :: l' => if is_ascii_punctuation c then drop_while_punct l' else l
  end.

(** [sentence.trim_end_matches(is_ascii_punctuation)] *)
Definition trim_end_punctuation (s : string) : string :=
  string_of_list_ascii (rev (drop_while_punct (rev (list_ascii_of_string s)))).

(** [lipsum::join_words]: the first word capitalised, words separated by one
    space, a word capitalised after a sentence end, and a final [.] put in
    place of trailing punctuation unless the text ends a sentence. *)
Fixpoint join_rest (sentence : string) (needs_cap : bool) (words : list string)
  : string :=
  match words with
  | [] => sentence
  | w :: ws =>
      join_rest (sentence ++ " " ++ (if needs_cap then capitalize w else w))
                (ends_with_sentence_end w) ws
  end.

Definition join_words (words : list string) : string :=
  match words with
  | [] => EmptyString
  | w :: ws =>
      let first := capitalize w in
      let sentence := join_rest first (ends_with_sentence_end first) ws in
      if ends_with_sentence_end sentence then sentence
      else trim_end_punctuation sentence ++ "."
  end.

(** [lipsum::lipsum(n)]: [n] words of the Markov chain started from
    ("Lorem", "ipsum").  The chain's word stream is an input: [chain k] is
    its [k]-th word. *)
Definition lipsum (chain : nat -> string) (n : N) : string :=
  join_words (map chain (seq 0 (N.to_nat n))).

(** [String::truncate(new_len)]: no effect when [new_len] is at least the
    length (the texts here are ASCII, so every index is a char boundary). *)
Definition truncate (new_len : N) (s : string) : string :=
  substring 0 (N.to_nat new_len) s.

(** [ServerState::generate_lorem_content] *)
Definition generate_lorem_content (chain : nat -> string) (length : N) : string :=
  if (length =? 0)%N then EmptyString
  else
    let word_count := N.div length 5 in
    let content := lipsum chain word_count in
    truncate length content.

(** The standard lorem-ipsum word stream, used for concrete runs. *)
Definition lorem_words : list string :=
  ["lorem"; "ipsum"; "dolor"; "sit"; "amet,"; "consectetur"; "adipiscing";
   "elit,"; "sed"; "do"; "eiusmod"; "tempor"; "incididunt"; "ut"; "labore";
   "et"; "dolore"; "magna"; "aliqua."].

Definition lorem_chain (k : nat) : string :=
  nth (Nat.modulo k (List.length lorem_words)) lorem_words "lorem".

(* ------------------------------------------------------------------ *)
(** ** Tokenizer ([tiktoken_rs]) *)

Inductive Result (A : Type) : Type :=
| Ok (a : A)
| Err (e : string).
Arguments Ok {A} a.
Arguments Err {A} e.

(** A loaded byte-pair encoder: [encode_with_special_tokens]. *)
Definition Bpe := string -> list N.

(** [ServerState::count_tokens]: [cl100k_base()?] then
    [encode_with_special_tokens(text).len() as u32]. *)
Definition count_tokens (cl100k_base : Result Bpe) (text : string) : Result N :=
  match cl100k_base with
  | Err e => Err e
  | Ok bpe => Ok (N.modulo (N.of_nat (List.length (bpe text))) u32_modulus)
  end.

(** [r.unwrap_or(d)] *)
Definition unwrap_or {A} (r : Result A) (d : A) : A :=
  match r with Ok a => a | Err _ => d end.

(* ------------------------------------------------------------------ *)
(** ** Quota checks *)

(** Modelled from the spec: [ServerState::check_request_limit_exceeded]
    (called by both handlers, not present in the sources).  Spec section 4.1:
    the window's expired entries are dropped first, then the request axis is
    exceeded when [count + 1 > limit]; the count itself is not changed. *)
Definition check_request_limit_exceeded (now : Z) (st : ServerState)
  : bool * ServerState :=
  let timestamps := prune_front (sixty_seconds_ago now) (request_timestamps st) in
  ((rpm (args st) <? N.of_nat (List.length timestamps) + 1)%N,
   set_request_timestamps st timestamps).

(** Modelled from the spec: [ServerState::check_token_limit_exceeded]
    (called by both handlers, not present in the sources).  Spec section 4.1:
    expired entries are dropped first, then the token axis is exceeded when
    [count + magnitude > limit]; when exceeded the magnitude is not applied,
    and the check never applies it itself (the handler calls
    [add_token_usage]). *)
Definition check_token_limit_exceeded (now : Z) (tokens : N) (st : ServerState)
  : bool * ServerState :=
  let timestamps :=
    prune_front_tokens (sixty_seconds_ago now) (token_usage_timestamps st) in
  ((tpm (args st) <? sum_tokens timestamps + tokens)%N,
   set_token_usage_timestamps st timestamps).

(* ------------------------------------------------------------------ *)
(** ** JSON values and HTTP responses *)

#[local] Set Warnings "-register-all".

(** [serde_json::Value] *)
Inductive json : Type :=
| JNull
| JBool (b : bool)
| JNum (n : N)
| JStr (s : string)
| JArr (l : list json)
| JObj (l : list (string * json)).

(** [Usage] of [src/chat_completions.rs] *)
Record Usage := mkUsage {
  prompt_tokens : N;
  completion_tokens : N;
  total_tokens : N
}.

(** [ChoiceDelta]; [Default::default()] is [mkChoiceDelta None None]. *)
Record ChoiceDelta := mkChoiceDelta {
  delta_role : option string;
  delta_content : option string
}.

Record ChunkChoice := mkChunkChoice {
  chunk_index : N;
  delta : ChoiceDelta;
  chunk_finish_reason : option string
}.

Record ChatCompletionChunk := mkChatCompletionChunk {
  chunk_id : string;
  chunk_object : string;
  chunk_created : N;
  chunk_model : string;
  chunk_choices : list ChunkChoice;
  chunk_usage : option Usage
}.

Record Message := mkMessage { message_role : string; message_content : string }.

Record Choice := mkChoice {
  choice_index : N;
  message : Message;
  finish_reason : string
}.

Record ChatCompletionResponse := mkChatCompletionResponse {
  ccr_id : string;
  ccr_object : string;
  ccr_created : N;
  ccr_model : string;
  ccr_choices : list Choice;
  ccr_usage : Usage
}.

(** [ChatCompletionRequest]: the decoded body. *)
Record ChatCompletionRequest := mkChatCompletionRequest {
  messages : option (list json);
  chat_model : option string;
  chat_stream : option bool
}.

(** A Protocol A SSE event: [Event::default().data(..)], whose data is a
    chunk (serialised with [serde_json::to_string]) or a literal string. *)
Inductive ChatSse : Type :=
| ChatChunkEvent (c : ChatCompletionChunk)
| ChatDataEvent (data : string).

(* ------------------------------------------------------------------ *)
(** ** Protocol A: the chat-completion stream *)

(** [char::is_whitespace] on the ASCII range. *)
Definition is_whitespace (c : ascii) : bool :=
  let n := nat_of_ascii c in ((9 <=? n) && (n <=? 13) || (n =? 32))%nat.

Fixpoint split_ws_aux (cur : string) (s : string) : list string :=
  match s with
  | EmptyString => match cur with EmptyString => [] | _ => [cur] end
  | String c s' =>
      if is_whitespace c then
        match cur with
        | EmptyString => split_ws_aux EmptyString s'
        | _ => cur :: split_ws_aux EmptyString s'
        end
      else split_ws_aux (cur ++ String c EmptyString) s'
  end.

(** [str::split_whitespace] *)
Definition split_whitespace (s : string) : list string := split_ws_aux EmptyString s.

(** The event vector built by [chat_completions] when [stream] is set. *)
Definition chat_stream_events (id : string) (created : N) (model : string)
  (content : string) (usage : Usage) : list ChatSse :=
  let words := split_whitespace content in
  (* 1. First chunk with role *)
  let first_chunk :=
    mkChatCompletionChunk id "chat.completion.chunk" created model
      [mkChunkChoice 0 (mkChoiceDelta (Some "assistant") None) None] None in
  (* 2. Content chunks *)
  let content_chunk word :=
    mkChatCompletionChunk id "chat.completion.chunk" created model
      [mkChunkChoice 0 (mkChoiceDelta None (Some (word ++ " "))) None] None in
  (* 3. Final chunk with finish_reason *)
  let final_chunk :=
    mkChatCompletionChunk id "chat.completion.chunk" created model
      [mkChunkChoice 0 (mkChoiceDelta None None) (Some "stop")] (Some usage) in
  [ChatChunkEvent first_chunk]
  ++ map (fun w => ChatChunkEvent (content_chunk w)) words
  ++ [ChatChunkEvent final_chunk;
      (* 4. Done message *)
      ChatDataEvent "[DONE]"].

(* ------------------------------------------------------------------ *)
(** ** Protocol B: data of [src/responses.rs] *)

Record ResponseReasoningItem := mkResponseReasoningItem {
  ri_id : string;
  ri_type : string;
  ri_summary : list json;
  ri_content : option json;
  ri_encrypted_content : option json;
  ri_status : option string
}.

(** [ResponseOutputText]; [Default::default()] has empty strings and lists. *)
Record ResponseOutputText := mkResponseOutputText {
  ot_type : string;
  ot_text : string;
  ot_annotations : list json;
  ot_logprobs : list json
}.

Record ResponseOutputMessage := mkResponseOutputMessage {
  om_id : string;
  om_type : string;
  om_content : list ResponseOutputText;
  om_role : string;
  om_status : string
}.

(** [ResponseOutputItem] (and the identically shaped [OutputItem] of the
    event payloads). *)
Inductive ResponseOutputItem : Type :=
| ItemReasoning (r : ResponseReasoningItem)
| ItemMessage (m : ResponseOutputMessage).

Record InputTokensDetails := mkInputTokensDetails { cached_tokens : N }.
Record OutputTokensDetails := mkOutputTokensDetails { reasoning_tokens : N }.

Record ResponseUsage := mkResponseUsage {
  input_tokens : N;
  input_tokens_details : InputTokensDetails;
  output_tokens : N;
  output_tokens_details : OutputTokensDetails;
  ru_total_tokens : N
}.

(** [Response]: the fields that vary between the snapshots and the two
    paths.  The remaining fields ([parallel_tool_calls], [temperature],
    [tool_choice], [top_p], [background], [reasoning], [service_tier], [text],
    [top_logprobs], [truncation], [store], and the [None] / empty ones) are
    constants, equal in every snapshot of both paths. *)
Record Response := mkResponse {
  r_id : string;
  r_created_at : Z;   (* [as_secs_f64()], an opaque value here *)
  r_instructions : option string;
  r_model : string;
  r_object : string;
  r_output : list ResponseOutputItem;
  r_status : string;
  r_usage : option ResponseUsage
}.

Definition set_output (r : Response) (o : list ResponseOutputItem) : Response :=
  mkResponse (r_id r) (r_created_at r) (r_instructions r) (r_model r)
    (r_object r) o (r_status r) (r_usage r).

Definition set_status_usage (r : Response) (s : string) (u : option ResponseUsage)
  : Response :=
  mkResponse (r_id r) (r_created_at r) (r_instructions r) (r_model r)
    (r_object r) (r_output r) s u.

(** The payloads of the named SSE events. *)
Inductive RespPayload : Type :=
| ResponseEvent (ty : string) (sequence_number : N) (response : Response)
| OutputItemAddedEvent (ty : string) (sequence_number : N) (output_index : N)
    (item : ResponseOutputItem)
| OutputItemDoneEvent (ty : string) (sequence_number : N) (output_index : N)
    (item : ResponseOutputItem)
| ContentPartAddedEvent (ty : string) (sequence_number : N) (output_index : N)
    (item_id : string) (content_index : N) (part : ResponseOutputText)
| TextDeltaEvent (ty : string) (sequence_number : N) (output_index : N)
    (item_id : string) (content_index : N) (delta : string)
    (logprobs : list json) (obfuscation : string)
| TextDoneEvent (ty : string) (sequence_number : N) (output_index : N)
    (item_id : string) (content_index : N) (text : string) (logprobs : list json)
| ContentPartDoneEvent (ty : string) (sequence_number : N) (output_index : N)
    (item_id : string) (content_index : N) (part : ResponseOutputText).

(** [Event::default().event(name).data(json)] or [Event::default().data(s)]. *)
Inductive RespSse : Type :=
| RespNamedEvent (event : string) (p : RespPayload)
| RespDataEvent (data : string).

Definition payload_sequence_number (p : RespPayload) : N :=
  match p with
  | ResponseEvent _ n _ | OutputItemAddedEvent _ n _ _ | OutputItemDoneEvent _ n _ _
  | ContentPartAddedEvent _ n _ _ _ _ | TextDeltaEvent _ n _ _ _ _ _ _
  | TextDoneEvent _ n _ _ _ _ _ | ContentPartDoneEvent _ n _ _ _ _ => n
  end.

(** The sequence numbers carried by a list of events, in order (the bare
    data event carries none). *)
Definition sequence_numbers (evs : list RespSse) : list N :=
  flat_map (fun e => match e with
                     | RespNamedEvent _ p => [payload_sequence_number p]
                     | RespDataEvent _ => []
                     end) evs.

(** The response snapshot embedded in an event, if any. *)
Definition embedded_response (e : RespSse) : option Response :=
  match e with
  | RespNamedEvent _ (ResponseEvent _ _ r) => Some r
  | _ => None
  end.

(* ------------------------------------------------------------------ *)
(** ** Protocol B: the [async_stream::stream!] generator of [responses]

    The generator's locals [sequence_number] and [response] are the state of
    a small state monad, together with the events yielded so far. *)

Record GenState := mkGenState {
  gen_sequence_number : N;
  gen_response : Response;
  gen_yielded : list RespSse
}.

Definition Gen (A : Type) : Type := GenState -> A * GenState.

Definition gen_ret {A} (a : A) : Gen A := fun s => (a, s).

Definition gen_bind {A B} (m : Gen A) (k : A -> Gen B) : Gen B :=
  fun s => let '(a, s') := m s in k a s'.

Notation "x <- m ;; k" := (gen_bind m (fun x => k))
  (at level 61, m at next level, right associativity).
Notation "m ;;; k" := (gen_bind m (fun _ => k))
  (at level 61, right associativity).

(** [sequence_number] *)
Definition get_sequence_number : Gen N :=
  fun s => (gen_sequence_number s, s).

(** [sequence_number += 1] *)
Definition incr_sequence_number : Gen unit :=
  fun s => (tt, mkGenState (gen_sequence_number s + 1) (gen_response s) (gen_yielded s)).

(** [response.clone()] *)
Definition get_response : Gen Response :=
  fun s => (gen_response s, s).

Definition modify_response (f : Response -> Response) : Gen unit :=
  fun s => (tt, mkGenState (gen_sequence_number s) (f (gen_response s)) (gen_yielded s)).

(** [yield Ok(e)] *)
Definition yield (e : RespSse) : Gen unit :=
  fun s => (tt, mkGenState (gen_sequence_number s) (gen_response s) (gen_yielded s ++ [e])).

(** [vec.get_mut(i)] followed by an in-place update: nothing when out of
    range. *)
Fixpoint update_nth {A} (i : nat) (f : A -> A) (l : list A) : list A :=
  match l, i with
  | [], _ => []
  | x :: l', O => f x :: l'
  | x :: l', S i' => x :: update_nth i' f l'
  end.

(** [if let Some(ResponseOutputItem::Message(msg)) = response.output.get_mut(1)
    { f(msg) }] *)
Definition update_message_1 (f : ResponseOutputMessage -> ResponseOutputMessage)
  (r : Response) : Response :=
  set_output r (update_nth 1 (fun it => match it with
                                       | ItemMessage m => ItemMessage (f m)
                                       | other => other
                                       end) (r_output r)).

(** [content.as_bytes().chunks(5)] *)
Fixpoint chunks5 (l : list ascii) : list (list ascii) :=
  match l with
  | a :: b :: c :: d :: e :: rest => [a; b; c; d; e] :: chunks5 rest
  | [] => []
  | _ => [l]
  end.

(** Everything the generator captures from the handler. *)
Record StreamCtx := mkStreamCtx {
  sc_response_id : string;
  sc_created_at : Z;
  sc_model : string;
  sc_instructions : option string;
  sc_reasoning_item_id : string;
  sc_message_id : string;
  sc_content : string;
  sc_prompt_tokens : N;
  sc_completion_tokens : N;
  sc_total_tokens : N;
  (** the [k]-th draw of the 10-character alphanumeric obfuscation token *)
  sc_obfuscation : nat -> string
}.

(** Step 7, the delta loop: one event per chunk, then [sequence_number += 1]
    (the 10 ms [sleep] has no effect on the events).  [String::from_utf8_lossy]
    is the identity on the ASCII text of the generator; the chunk's bytes are
    the delta. *)
Fixpoint delta_loop (ctx : StreamCtx) (k : nat) (chunks : list (list ascii)) : Gen unit :=
  match chunks with
  | [] => gen_ret tt
  | chunk :: rest =>
      sequence_number <- get_sequence_number ;;
      let delta := string_of_list_ascii chunk in
      let obfuscation := sc_obfuscation ctx k in
      yield (RespNamedEvent "response.output_text.delta"
               (TextDeltaEvent "response.output_text.delta" sequence_number 1
                  (sc_message_id ctx) 0 delta [] obfuscation)) ;;;
      incr_sequence_number ;;;
      delta_loop ctx (S k) rest
  end.

Definition output_text (text : string) : ResponseOutputText :=
  mkResponseOutputText "output_text" text [] [].

(** The body of the [stream!] block of [responses]. *)
Definition responses_stream_body (ctx : StreamCtx) : Gen unit :=
  let message_id := sc_message_id ctx in
  let content := sc_content ctx in
  (* 1. response.created *)
  sequence_number <- get_sequence_number ;;
  response <- get_response ;;
  yield (RespNamedEvent "response.created"
           (ResponseEvent "response.created" sequence_number response)) ;;;
  incr_sequence_number ;;;
  (* 2. response.in_progress *)
  sequence_number <- get_sequence_number ;;
  response <- get_response ;;
  yield (RespNamedEvent "response.in_progress"
           (ResponseEvent "response.in_progress" sequence_number response)) ;;;
  incr_sequence_number ;;;
  (* 3. response.output_item.added (reasoning) *)
  let reasoning_item :=
    mkResponseReasoningItem (sc_reasoning_item_id ctx) "reasoning" [] None None None in
  sequence_number <- get_sequence_number ;;
  modify_response (fun r => set_output r (r_output r ++ [ItemReasoning reasoning_item])) ;;;
  yield (RespNamedEvent "response.output_item.added"
           (OutputItemAddedEvent "response.output_item.added" sequence_number 0
              (ItemReasoning reasoning_item))) ;;;
  incr_sequence_number ;;;
  (* 4. response.output_item.done (reasoning) *)
  sequence_number <- get_sequence_number ;;
  yield (RespNamedEvent "response.output_item.done"
           (OutputItemDoneEvent "response.output_item.done" sequence_number 0
              (ItemReasoning reasoning_item))) ;;;
  incr_sequence_number ;;;
  (* 5. response.output_item.added (message) *)
  let message_item :=
    mkResponseOutputMessage message_id "message" [] "assistant" "in_progress" in
  sequence_number <- get_sequence_number ;;
  modify_response (fun r => set_output r (r_output r ++ [ItemMessage message_item])) ;;;
  yield (RespNamedEvent "response.output_item.added"
           (OutputItemAddedEvent "response.output_item.added" sequence_number 1
              (ItemMessage message_item))) ;;;
  incr_sequence_number ;;;
  (* 6. response.content_part.added *)
  let part := output_text "" in
  sequence_number <- get_sequence_number ;;
  modify_response (update_message_1 (fun m =>
    mkResponseOutputMessage (om_id m) (om_type m) (om_content m ++ [part])
      (om_role m) (om_status m))) ;;;
  yield (RespNamedEvent "response.content_part.added"
           (ContentPartAddedEvent "response.content_part.added" sequence_number 1
              message_id 0 part)) ;;;
  incr_sequence_number ;;;
  (* 7. response.output_text.delta *)
  delta_loop ctx 0 (chunks5 (list_ascii_of_string content)) ;;;
  (* 8. response.output_text.done *)
  sequence_number <- get_sequence_number ;;
  modify_response (update_message_1 (fun m =>
    mkResponseOutputMessage (om_id m) (om_type m)
      (update_nth 0 (fun p => mkResponseOutputText (ot_type p) content
                                (ot_annotations p) (ot_logprobs p)) (om_content m))
      (om_role m) (om_status m))) ;;;
  yield (RespNamedEvent "response.output_text.done"
           (TextDoneEvent "response.output_text.done" sequence_number 1
              message_id 0 content [])) ;;;
  incr_sequence_number ;;;
  (* 9. response.content_part.done *)
  sequence_number <- get_sequence_number ;;
  yield (RespNamedEvent "response.content_part.done"
           (ContentPartDoneEvent "response.content_part.done" sequence_number 1
              message_id 0 (output_text content))) ;;;
  incr_sequence_number ;;;
  (* 10. response.output_item.done (message) *)
  let final_message_item :=
    mkResponseOutputMessage message_id "message" [output_text content]
      "assistant" "completed" in
  sequence_number <- get_sequence_number ;;
  modify_response (update_message_1 (fun _ => final_message_item)) ;;;
  yield (RespNamedEvent "response.output_item.done"
           (OutputItemDoneEvent "response.output_item.done" sequence_number 1
              (ItemMessage final_message_item))) ;;;
  incr_sequence_number ;;;
  (* 11. response.completed *)
  modify_response (fun r => set_status_usage r "completed"
    (Some (mkResponseUsage (sc_prompt_tokens ctx) (mkInputTokensDetails 0)
             (add_u32 (sc_completion_tokens ctx) 128)  (* mock reasoning tokens *)
             (mkOutputTokensDetails 128)
             (add_u32 (sc_total_tokens ctx) 128)))) ;;;
  sequence_number <- get_sequence_number ;;
  response <- get_response ;;
  yield (RespNamedEvent "response.completed"
           (ResponseEvent "response.completed" sequence_number response)) ;;;
  (* End of stream *)
  yield (RespDataEvent "[DONE]").

(** The initial [Response] of the stream: [status = "in_progress"], no
    output, no usage. *)
Definition initial_stream_response (ctx : StreamCtx) : Response :=
  mkResponse (sc_response_id ctx) (sc_created_at ctx) (sc_instructions ctx)
    (sc_model ctx) "response" [] "in_progress" None.

(** The events of one full Protocol B stream, in order. *)
Definition responses_stream_events (ctx : StreamCtx) : list RespSse :=
  gen_yielded (snd (responses_stream_body ctx
                      (mkGenState 0 (initial_stream_response ctx) []))).

(* ------------------------------------------------------------------ *)
(** ** The handlers *)

(** The inputs of one request that do not come from the payload or the
    server state: the clock (one reading for the whole request), the random
    draws, and the external crates. *)
Record Env := mkEnv {
  clock : Z;                                (* SystemTime::now() *)
  unix_secs : N;                            (* created, [as_secs()] *)
  unix_secs_f64 : Z;                        (* created_at, [as_secs_f64()] *)
  error_draw : N;                           (* rng.gen_range(0..100) *)
  gen_range_incl : N -> N -> N;             (* gen_range(min..=max) *)
  u32_draw : N;                             (* rand::thread_rng().gen::<u32>() *)
  generate_id : string -> string;           (* generate_id(prefix) *)
  obfuscation_draws : nat -> string;        (* Alphanumeric, take(10) *)
  chain : nat -> string;                    (* the lipsum word stream *)
  cl100k_base : Result Bpe;                 (* tiktoken_rs::cl100k_base() *)
  messages_to_string : list json -> string  (* serde_json::to_string(msgs).unwrap_or_default() *)
}.

Inductive Body : Type :=
| BodyJson (j : json)
| BodyChat (r : ChatCompletionResponse)
| BodyResponses (r : Response)
| BodyChatSse (events : list ChatSse)
| BodyResponsesSse (events : list RespSse).

Record HttpResponse := mkHttpResponse {
  status : N;
  headers : HeaderMap;
  body : Body
}.

(** [(status, headers, Json(body)).into_response()] *)
Definition json_response (status : N) (hs : HeaderMap) (b : Body) : HttpResponse :=
  mkHttpResponse status (("content-type", "application/json") :: hs) b.

(** [Sse::new(stream).into_response()] *)
Definition sse_response (b : Body) : HttpResponse :=
  mkHttpResponse 200 [("content-type", "text/event-stream");
                      ("cache-control", "no-cache")] b.

(** [StatusCode::from_u16(code).unwrap_or(StatusCode::INTERNAL_SERVER_ERROR)] *)
Definition status_from_u16 (code : N) : N :=
  if ((100 <=? code)%N && (code <=? 999)%N)%bool then code else 500.

Definition rate_limit_error_body (msg : string) : json :=
  JObj [("error", JObj [("message", JStr msg);
                        ("type", JStr "rate_limit_error");
                        ("code", JStr "rate_limit_exceeded")])].

Definition simulated_error_body (error_code : N) : json :=
  JObj [("error", JObj [("message", JStr ("Simulated error with code " ++ N_to_string error_code));
                        ("type", JStr "api_error");
                        ("code", JStr (N_to_string error_code))])].

(** The handler's result: [None] is a panic of the handler task
    ([gen_range] on an empty range). *)
Definition Outcome := option (HttpResponse * ServerState).

(** Lines 136-264 of [chat_completions]: from the total token count to the
    end (token-axis check, counting, and the stream or the complete
    response). *)
Definition chat_completions_token_stage (env : Env) (st : ServerState)
  (payload : ChatCompletionRequest) (content : string)
  (prompt_tokens completion_tokens : N) : Outcome :=
  let now := clock env in
  let total_tokens := add_u32 prompt_tokens completion_tokens in
  let '(exceeded, st) := check_token_limit_exceeded now total_tokens st in
  if exceeded then
    let '(hs, st) := get_rate_limit_headers now st in
    Some (json_response 429 hs
            (BodyJson (rate_limit_error_body "You have exceeded your token quota.")), st)
  else
  let st := add_token_usage now total_tokens st in
  let usage := mkUsage prompt_tokens completion_tokens total_tokens in
  let stream_response := match chat_stream payload with Some b => b | None => false end in
  let model := match chat_model payload with Some m => m | None => "gpt-3.5-turbo" end in
  if stream_response then
    let id := "chatcmpl-" ++ N_to_string (u32_draw env) in
    Some (sse_response (BodyChatSse (chat_stream_events id (unix_secs env) model content usage)), st)
  else
    let response :=
      mkChatCompletionResponse ("chatcmpl-" ++ N_to_string (u32_draw env))
        "chat.completion" (unix_secs env) model
        [mkChoice 0 (mkMessage "assistant" content) "stop"] usage in
    let '(hs, st) := get_rate_limit_headers now st in
    Some (json_response 200 hs (BodyChat response), st).

(** [chat_completions] of [src/chat_completions.rs] *)
Definition chat_completions (env : Env) (st : ServerState)
  (payload : ChatCompletionRequest) : Outcome :=
  let now := clock env in
  let '(exceeded, st) := check_request_limit_exceeded now st in
  if exceeded then
    let '(hs, st) := get_rate_limit_headers now st in
    Some (json_response 429 hs (BodyJson (rate_limit_error_body "Too many requests")), st)
  else
  let st := increment_request_count now st in
  match should_return_error (error_draw env) (args st) with
  | Some error_code =>
      let '(hs, st) := get_rate_limit_headers now st in
      Some (json_response (status_from_u16 error_code) hs
              (BodyJson (simulated_error_body error_code)), st)
  | None =>
  match get_response_length (gen_range_incl env) (args st) with
  | None => None
  | Some response_length =>
  if (response_length =? 0)%N then
    let '(hs, st) := get_rate_limit_headers now st in
    Some (json_response 204 hs (BodyJson (JObj [])), st)
  else
  let content := generate_lorem_content (chain env) response_length in
  let prompt_text :=
    match messages payload with Some msgs => messages_to_string env msgs | None => "" end in
  let prompt_tokens := unwrap_or (count_tokens (cl100k_base env) prompt_text) 0%N in
  let completion_tokens := unwrap_or (count_tokens (cl100k_base env) content) 0%N in
  chat_completions_token_stage env st payload content prompt_tokens completion_tokens
  end
  end.

(** [ResponsesRequest]: the decoded body. *)
Record ResponsesRequest := mkResponsesRequest {
  resp_model : option string;
  input : option string;
  instructions : option string;
  resp_stream : option bool
}.

(** Lines 272-578 of [responses]: from the total token count to the end. *)
Definition responses_token_stage (env : Env) (st : ServerState)
  (payload : ResponsesRequest) (content : string)
  (prompt_tokens completion_tokens : N) : Outcome :=
  let now := clock env in
  let total_tokens := add_u32 prompt_tokens completion_tokens in
  let '(exceeded, st) := check_token_limit_exceeded now total_tokens st in
  if exceeded then
    let '(hs, st) := get_rate_limit_headers now st in
    Some (json_response 429 hs
            (BodyJson (rate_limit_error_body "You have exceeded your token quota.")), st)
  else
  let st := add_token_usage now total_tokens st in
  let '(hs, st) := get_rate_limit_headers now st in
  let model := match resp_model payload with Some m => m | None => "gpt-5-2025-08-07" end in
  let response_id := generate_id env "resp" in
  let message_id := generate_id env "msg" in
  let created_at := unix_secs_f64 env in
  let stream_response := match resp_stream payload with Some b => b | None => false end in
  if stream_response then
    let reasoning_item_id := generate_id env "rs" in
    let ctx := mkStreamCtx response_id created_at model (instructions payload)
                 reasoning_item_id message_id content prompt_tokens
                 completion_tokens total_tokens (obfuscation_draws env) in
    Some (sse_response (BodyResponsesSse (responses_stream_events ctx)), st)
  else
    let message_item :=
      mkResponseOutputMessage message_id "message" [mkResponseOutputText "output_text" content [] []]
        "assistant" "completed" in
    let response :=
      mkResponse response_id created_at (instructions payload) model "response"
        [ItemMessage message_item] "completed"
        (Some (mkResponseUsage prompt_tokens (mkInputTokensDetails 0)
                 completion_tokens (mkOutputTokensDetails 0) total_tokens)) in
    Some (json_response 200 hs (BodyResponses response), st).

(** [responses] of [src/responses.rs] *)
Definition responses (env : Env) (st : ServerState) (payload : ResponsesRequest)
  : Outcome :=
  let now := clock env in
  let '(exceeded, st) := check_request_limit_exceeded now st in
  if exceeded then
    let '(hs, st) := get_rate_limit_headers now st in
    Some (json_response 429 hs (BodyJson (rate_limit_error_body "Too many requests")), st)
  else
  let st := increment_request_count now st in
  match should_return_error (error_draw env) (args st) with
  | Some error_code =>
      let '(hs, st) := get_rate_limit_headers now st in
      Some (json_response (status_from_u16 error_code) hs
              (BodyJson (simulated_error_body error_code)), st)
  | None =>
  match get_response_length (gen_range_incl env) (args st) with
  | None => None
  | Some response_length =>
  if (response_length =? 0)%N then
    let '(hs, st) := get_rate_limit_headers now st in
    Some (json_response 204 hs (BodyJson (JObj [])), st)
  else
  let content := generate_lorem_content (chain env) response_length in
  let prompt_text := match input payload with Some s => s | None => "" end in
  let prompt_tokens := unwrap_or (count_tokens (cl100k_base env) prompt_text) 0%N in
  let completion_tokens := unwrap_or (count_tokens (cl100k_base env) content) 0%N in
  responses_token_stage env st payload content prompt_tokens completion_tokens
  end
  end.

(* ------------------------------------------------------------------ *)
(** ** Concrete runs *)

(** A stand-in encoder for concrete runs: one token per 4 bytes, rounded up. *)
Definition sample_bpe : Bpe :=
  fun s => repeat 0%N (Nat.div (String.length s + 3) 4).

Definition sample_env : Env :=
  mkEnv 100000000000%Z 1700000000 1700000000%Z 50 (fun lo _ => lo) 42
    (fun p => p ++ "_1") (fun _ => "aaaaaaaaaa") lorem_chain (Ok sample_bpe)
    (fun _ => "[]").

(** The configuration of the repository's tests: [response_length = "10"],
    no fault, [rpm = 60], [tpm = 150000]. *)
Definition test_args : Args := mkArgs (Some "10") None None 60 150000.

Definition fresh_state (a : Args) : ServerState := mkServerState a [] [].

(** [sample_env] with a tokenizer whose vocabulary fails to load. *)
Definition failing_tokenizer_env : Env :=
  mkEnv 100000000000%Z 1700000000 1700000000%Z 50 (fun lo _ => lo) 42
    (fun p => p ++ "_1") (fun _ => "aaaaaaaaaa") lorem_chain
    (Err "cl100k_base: vocabulary not loaded") (fun _ => "[]").

(** A configured length that is not a number. *)
Definition unparseable_length_args : Args := mkArgs (Some "abc") None None 60 150000.

(** Requests at 0 s and 30 s, and 5 tokens counted at 0 s. *)
Definition two_requests_state : ServerState :=
  mkServerState test_args [0%Z; 30000000000%Z] [(0%Z, 5%N)].

(** The bodies of the repository's tests, with the [stream] flag set as
    given. *)
Definition sample_chat_request (stream : bool) : ChatCompletionRequest :=
  mkChatCompletionRequest
    (Some [JObj [("role", JStr "user"); ("content", JStr "Hello")]])
    (Some "gpt-3.5-turbo") (Some stream).

Definition sample_responses_request (stream : bool) : ResponsesRequest :=
  mkResponsesRequest (Some "gpt-4.1") (Some "Hello") None (Some stream).

(* ------------------------------------------------------------------ *)
(** ** The fixed-window tracker of the spec (section 4.1)

    A second, separately named model that follows the spec's words, to be
    compared with the sliding window of [ServerState]. *)
Module FixedWindow.

Record QuotaWindow := mkQuotaWindow {
  count : N;
  limit : N;
  window_duration : N;
  reset_at : Z
}.

(** "compare current time to [reset_at]; if expired, reset count to 0 and
    advance [reset_at] by exactly one [window_duration] from now". *)
Definition expire (now : Z) (w : QuotaWindow) : QuotaWindow :=
  if (reset_at w <=? now)%Z
  then mkQuotaWindow 0 (limit w) (window_duration w) (now + Z.of_N (window_duration w))
  else w.

End FixedWindow.

(* ------------------------------------------------------------------ *)
(** ** Observations on responses and streams *)

(** [headers.get(name)]: the value of the first header of that name. *)
Definition header_value (name : string) (hs : HeaderMap) : option string :=
  match find (fun h => String.eqb (fst h) name) hs with
  | Some (_, v) => Some v
  | None => None
  end.

Definition has_prefix (p s : string) : bool := String.prefix p s.

(** The names of the [x-ratelimit-*] headers of a response. *)
Definition ratelimit_header_names (r : HttpResponse) : list string :=
  filter (has_prefix "x-ratelimit-") (map fst (headers r)).

(** The (event name, usage) of every event of a Protocol B stream that
    embeds a response snapshot with a populated usage field. *)
Definition usage_carriers (evs : list RespSse) : list (string * ResponseUsage) :=
  flat_map (fun e => match e with
                     | RespNamedEvent n (ResponseEvent _ _ r) =>
                         match r_usage r with Some u => [(n, u)] | None => [] end
                     | _ => []
                     end) evs.

(** The same request environment with another tokenizer loader. *)
Definition with_cl100k_base (env : Env) (b : Result Bpe) : Env :=
  mkEnv (clock env) (unix_secs env) (unix_secs_f64 env) (error_draw env)
    (gen_range_incl env) (u32_draw env) (generate_id env) (obfuscation_draws env)
    (chain env) b (messages_to_string env).

(** The events of the delta loop started at chunk [k] and sequence number
    [n]. *)
Fixpoint delta_events (ctx : StreamCtx) (k : nat) (n : N) (chunks : list (list ascii))
  : list RespSse :=
  match chunks with
  | [] => []
  | chunk :: rest =>
      RespNamedEvent "response.output_text.delta"
        (TextDeltaEvent "response.output_text.delta" n 1 (sc_message_id ctx) 0
           (string_of_list_ascii chunk) [] (sc_obfuscation ctx k))
      :: delta_events ctx (S k) (n + 1) rest
  end.

(** The names of the [x-ratelimit-*] headers of a handler's response. *)
Definition outcome_ratelimit_headers (o : Outcome) : option (list string) :=
  option_map (fun p => ratelimit_header_names (fst p)) o.

(** [now - 60 s <= t]: the entry [t] is inside the window at [now]. *)
Definition in_window (now t : Z) : bool := (sixty_seconds_ago now <=? t)%Z.

(** An encoder that yields no token. *)
Definition zero_bpe : Bpe := fun _ => [].

(* ------------------------------------------------------------------ *)
(** ** Identifiers *)

(** [format!("chatcmpl-{}", rand::thread_rng().gen::<u32>())]: the id of a
    chat completion, built inline at lines 153 and 241 of
    [src/chat_completions.rs]; [draw] is the random [u32]. *)
Definition chat_completion_id (draw : N) : string := "chatcmpl-" ++ N_to_string draw.

Fixpoint hex_uint_to_string (d : Hexadecimal.uint) : string :=
  match d with
  | Hexadecimal.Nil => EmptyString
  | Hexadecimal.D0 d' => String "0" (hex_uint_to_string d')
  | Hexadecimal.D1 d' => String "1" (hex_uint_to_string d')
  | Hexadecimal.D2 d' => String "2" (hex_uint_to_string d')
  | Hexadecimal.D3 d' => String "3" (hex_uint_to_string d')
  | Hexadecimal.D4 d' => String "4" (hex_uint_to_string d')
  | Hexadecimal.D5 d' => String "5" (hex_uint_to_string d')
  | Hexadecimal.D6 d' => String "6" (hex_uint_to_string d')
  | Hexadecimal.D7 d' => String "7" (hex_uint_to_string d')
  | Hexadecimal.D8 d' => String "8" (hex_uint_to_string d')
  | Hexadecimal.D9 d' => String "9" (hex_uint_to_string d')
  | Hexadecimal.Da d' => String "a" (hex_uint_to_string d')
  | Hexadecimal.Db d' => String "b" (hex_uint_to_string d')
  | Hexadecimal.Dc d' => String "c" (hex_uint_to_string d')
  | Hexadecimal.Dd d' => String "d" (hex_uint_to_string d')
  | Hexadecimal.De d' => String "e" (hex_uint_to_string d')
  | Hexadecimal.Df d' => String "f" (hex_uint_to_string d')
  end.

(** [format!("{:x}", n)] for an unsigned integer: lowercase hexadecimal
    digits, no leading zero ("0" for 0). *)
Definition N_to_hex_string (n : N) : string := hex_uint_to_string (N.to_hex_uint n).

Module Responses.

(** [generate_id] of [src/responses.rs]: [format!("{}_{:x}", prefix, draw)]
    where [draw] is [rand::thread_rng().gen::<u128>()]. *)
Definition generate_id (prefix : string) (draw : N) : string :=
  prefix ++ "_" ++ N_to_hex_string draw.

End Responses.

(* ------------------------------------------------------------------ *)
(** ** More observations *)

(** The names of the six headers [get_rate_limit_headers] inserts, in
    insertion order. *)
Definition ratelimit_six : list string :=
  ["x-ratelimit-limit-requests"; "x-ratelimit-remaining-requests";
   "x-ratelimit-reset-requests"; "x-ratelimit-limit-tokens";
   "x-ratelimit-remaining-tokens"; "x-ratelimit-reset-tokens"].

(** The body is an SSE stream. *)
Definition is_sse_body (b : Body) : bool :=
  match b with
  | BodyChatSse _ | BodyResponsesSse _ => true
  | _ => false
  end.

(** The [delta.content] strings of a Protocol A stream, in order. *)
Definition chat_deltas (evs : list ChatSse) : list string :=
  flat_map (fun e => match e with
                     | ChatChunkEvent c =>
                         flat_map (fun ch => match delta_content (delta ch) with
                                             | Some s => [s]
                                             | None => []
                                             end) (chunk_choices c)
                     | ChatDataEvent _ => []
                     end) evs.

(** The bytes of a text that are not whitespace, in order. *)
Definition non_whitespace (l : list ascii) : list ascii :=
  filter (fun c => negb (is_whitespace c)) l.

(** The [delta] strings of the [response.output_text.delta] events of a
    Protocol B stream, in order. *)
Definition resp_text_deltas (evs : list RespSse) : list string :=
  flat_map (fun e => match e with
                     | RespNamedEvent _ (TextDeltaEvent _ _ _ _ _ d _ _) => [d]
                     | _ => []
                     end) evs.

(** The response snapshots embedded in a Protocol B stream, in order. *)
Definition response_snapshots (evs : list RespSse) : list Response :=
  flat_map (fun e => match embedded_response e with Some r => [r] | None => [] end) evs.

(** Both queues chronologically ordered, and no entry later than [now]. *)
Definition queues_ordered_upto (now : Z) (st : ServerState) : Prop :=
  Sorted Z.le (request_timestamps st) /\
  Forall (fun t => (t <= now)%Z) (request_timestamps st) /\
  Sorted Z.le (map fst (token_usage_timestamps st)) /\
  Forall (fun t => (t <= now)%Z) (map fst (token_usage_timestamps st)).

(** The value of a decimal digit string read most significant digit first,
    starting from [acc]. *)
Fixpoint decimal_value (acc : N) (d : Decimal.uint) : N :=
  match d with
  | Decimal.Nil => acc
  | Decimal.D0 d' => decimal_value (acc * 10 + 0) d'
  | Decimal.D1 d' => decimal_value (acc * 10 + 1) d'
  | Decimal.D2 d' => decimal_value (acc * 10 + 2) d'
  | Decimal.D3 d' => decimal_value (acc * 10 + 3) d'
  | Decimal.D4 d' => decimal_value (acc * 10 + 4) d'
  | Decimal.D5 d' => decimal_value (acc * 10 + 5) d'
  | Decimal.D6 d' => decimal_value (acc * 10 + 6) d'
  | Decimal.D7 d' => decimal_value (acc * 10 + 7) d'
  | Decimal.D8 d' => decimal_value (acc * 10 + 8) d'
  | Decimal.D9 d' => decimal_value (acc * 10 + 9) d'
  end.

(** The outcome's response carries the six [x-ratelimit-*] headers unless
    its body is an SSE stream, which carries none (a panic has no response). *)
Definition ratelimit_headers_match_body (o : Outcome) : Prop :=
  match o with
  | Some (r, _) =>
      ratelimit_header_names r = if is_sse_body (body r) then [] else ratelimit_six
  | None => True
  end.

(** A configuration that always injects a 503. *)
Definition always_503_args : Args := mkArgs (Some "10") (Some 503%N) (Some 100%N) 60 150000.

(** From here on, [++] is list concatenation. *)
Open Scope list_scope.

(* ------------------------------------------------------------------ *)
(** ** Sample evaluations *)

Example format_duration_75 : format_duration_secs 75 = "1m 15s".
Proof. reflexivity. Qed.

Example lipsum_lorem_4 : lipsum lorem_chain 4 = "Lorem ipsum dolor sit.".
Proof. reflexivity. Qed.

Example lipsum_lorem_5 : lipsum lorem_chain 5 = "Lorem ipsum dolor sit amet.".
Proof. reflexivity. Qed.

Example split_whitespace_abc : split_whitespace " a  b c" = ["a"; "b"; "c"].
Proof. reflexivity. Qed.

(* ------------------------------------------------------------------ *)
(** ** Lemmas on the sliding-window queues *)

Lemma prune_front_sorted (cutoff : Z) (q : list Z) :
  Sorted Z.le q -> prune_front cutoff q = filter (fun t => (cutoff <=? t)%Z) q.
Proof.
  intros Hs. apply Sorted_StronglySorted in Hs; [| intros x y z; lia].
  induction Hs as [| t q Hss IH Hall]; simpl; [reflexivity |].
  destruct (Z.ltb_spec t cutoff) as [Hlt | Hge].
  - rewrite IH. replace (cutoff <=? t)%Z with false by lia. reflexivity.
  - replace (cutoff <=? t)%Z with true by lia. f_equal.
    symmetry. apply forallb_filter_id. apply forallb_forall.
    intros x Hx. rewrite Forall_forall in Hall. specialize (Hall x Hx).
    apply Z.leb_le. lia.
Qed.

Lemma prune_front_tokens_sorted (cutoff : Z) (q : list (Z * N)) :
  Sorted Z.le (map fst q) ->
  prune_front_tokens cutoff q = filter (fun p => (cutoff <=? fst p)%Z) q.
Proof.
  intros Hs. apply Sorted_StronglySorted in Hs; [| intros x y z; lia].
  remember (map fst q) as l eqn:El. revert q El.
  induction Hs as [| t l Hss IH Hall]; intros q El;
    destruct q as [| [t' n] q]; simpl in *; try discriminate; [reflexivity |].
  injection El as Et El. subst t'.
  destruct (Z.ltb_spec t cutoff) as [Hlt | Hge].
  - rewrite (IH q El). replace (cutoff <=? t)%Z with false by lia. reflexivity.
  - replace (cutoff <=? t)%Z with true by lia. f_equal.
    symmetry. apply forallb_filter_id. apply forallb_forall.
    intros [x m] Hx. subst l. rewrite Forall_forall in Hall.
    specialize (Hall x (in_map fst _ _ Hx)). simpl. apply Z.leb_le. lia.
Qed.

(** The loop stops at the first entry inside the window: pruning twice at
    the same cutoff, or first at an earlier cutoff, is pruning once. *)
Lemma prune_front_tokens_mono (c c' : Z) (q : list (Z * N)) :
  (c <= c')%Z ->
  prune_front_tokens c' (prune_front_tokens c q) = prune_front_tokens c' q.
Proof.
  intros Hc. induction q as [| [t n] q IH]; simpl; [reflexivity |].
  destruct (Z.ltb_spec t c) as [Hlt | Hge].
  - rewrite IH. simpl. replace (t <? c')%Z with true by lia. reflexivity.
  - reflexivity.
Qed.

Lemma prune_front_tokens_app_in (c : Z) (q : list (Z * N)) (t : Z) (n : N) :
  (c <= t)%Z ->
  prune_front_tokens c (prune_front_tokens c q ++ [(t, n)])%list
  = (prune_front_tokens c q ++ [(t, n)])%list.
Proof.
  intros Ht. induction q as [| [t0 n0] q IH]; simpl.
  - replace (t <? c)%Z with false by lia. reflexivity.
  - destruct (Z.ltb_spec t0 c) as [Hlt | Hge]; [exact IH |].
    simpl. replace (t0 <? c)%Z with false by lia. reflexivity.
Qed.

Lemma sixty_seconds_ago_le (now : Z) : (sixty_seconds_ago now <= now)%Z.
Proof. unfold sixty_seconds_ago. lia. Qed.

(* ------------------------------------------------------------------ *)
(** ** C1: the quota tracker's window *)

Lemma prune_front_split (c : Z) (q : list Z) :
  exists dropped, q = dropped ++ prune_front c q /\ Forall (fun t => (t < c)%Z) dropped.
Proof.
  induction q as [| t q [d [Eq Hd]]]; simpl.
  - exists []. split; [reflexivity | constructor].
  - destruct (Z.ltb_spec t c) as [Hlt | Hge].
    + exists (t :: d). split; [simpl; f_equal; exact Eq | constructor; assumption].
    + exists []. split; [reflexivity | constructor].
Qed.

Lemma prune_front_head (c : Z) (q : list Z) :
  match prune_front c q with [] => True | t :: _ => (c <= t)%Z end.
Proof.
  induction q as [| t q IH]; simpl; [exact I |].
  destruct (Z.ltb_spec t c) as [Hlt | Hge]; [exact IH | exact Hge].
Qed.

Lemma prune_front_tokens_split (c : Z) (q : list (Z * N)) :
  exists dropped, q = dropped ++ prune_front_tokens c q
                  /\ Forall (fun p => (fst p < c)%Z) dropped.
Proof.
  induction q as [| [t n] q [d [Eq Hd]]]; simpl.
  - exists []. split; [reflexivity | constructor].
  - destruct (Z.ltb_spec t c) as [Hlt | Hge].
    + exists ((t, n) :: d). split; [simpl; f_equal; exact Eq | constructor; assumption].
    + exists []. split; [reflexivity | constructor].
Qed.

Lemma prune_front_tokens_head (c : Z) (q : list (Z * N)) :
  match prune_front_tokens c q with [] => True | p :: _ => (c <= fst p)%Z end.
Proof.
  induction q as [| [t n] q IH]; simpl; [exact I |].
  destruct (Z.ltb_spec t c) as [Hlt | Hge]; [exact IH | exact Hge].
Qed.

(** C1 (counterexample).  The spec's fixed window leaves the count of a
    window as it was or resets it to 0 on each check.  The tracker of
    [ServerState] does neither: with requests at 0 s and 30 s and
    [rpm = 60], the remaining-requests header reads 58 at 31 s and 59 at
    61 s, because only the request of 0 s left the window. *)
Lemma C1_tracker_is_not_fixed_window :
  (forall now w,
      FixedWindow.count (FixedWindow.expire now w) = FixedWindow.count w \/
      FixedWindow.count (FixedWindow.expire now w) = 0%N) /\
  (let st := mkServerState test_args [0%Z; 30000000000%Z] [] in
   let '(h1, st1) := get_rate_limit_headers 31000000000 st in
   let '(h2, _) := get_rate_limit_headers 61000000000 st1 in
   header_value "x-ratelimit-remaining-requests" h1 = Some "58" /\
   header_value "x-ratelimit-remaining-requests" h2 = Some "59").
Proof.
  split.
  - intros now w. unfold FixedWindow.expire.
    destruct (FixedWindow.reset_at w <=? now)%Z; simpl; auto.
  - vm_compute. split; reflexivity.
Qed.

(** C1 (amended).  The tracker is a sliding 60-second window with no
    [reset_at] and no count reset.  For any queues,
    [increment_request_count], [add_token_usage] and
    [get_rate_limit_headers] first drop from the front of each queue the
    entries older than [now - 60 s] (a prefix of such entries; what is kept
    is empty or starts with an entry no older than [now - 60 s]); an
    increment then appends [now] (with its token amount); the request count
    is the number of kept entries and the token usage the sum of their
    amounts.  For a chronologically ordered queue the kept entries are
    exactly those of the last 60 s ([now - 60 s <= t]). *)
Theorem C1_sliding_window (now : Z) (tokens : N) (st : ServerState) :
  let c := sixty_seconds_ago now in
  let kept_requests := prune_front c (request_timestamps st) in
  let kept_tokens := prune_front_tokens c (token_usage_timestamps st) in
  (exists dropped, request_timestamps st = (dropped ++ kept_requests)%list /\
     Forall (fun t => (t < c)%Z) dropped /\
     match kept_requests with [] => True | t :: _ => (c <= t)%Z end) /\
  (exists dropped, token_usage_timestamps st = (dropped ++ kept_tokens)%list /\
     Forall (fun p => (fst p < c)%Z) dropped /\
     match kept_tokens with [] => True | p :: _ => (c <= fst p)%Z end) /\
  request_timestamps (increment_request_count now st) = (kept_requests ++ [now])%list /\
  token_usage_timestamps (add_token_usage now tokens st)
    = (kept_tokens ++ [(now, tokens)])%list /\
  request_timestamps (snd (get_rate_limit_headers now st)) = kept_requests /\
  token_usage_timestamps (snd (get_rate_limit_headers now st)) = kept_tokens /\
  header_value "x-ratelimit-remaining-requests" (fst (get_rate_limit_headers now st))
    = Some (N_to_string (saturating_sub (rpm (args st)) (N.of_nat (length kept_requests)))) /\
  header_value "x-ratelimit-remaining-tokens" (fst (get_rate_limit_headers now st))
    = Some (N_to_string (saturating_sub (tpm (args st)) (sum_tokens kept_tokens))) /\
  (Sorted Z.le (request_timestamps st) ->
     kept_requests = filter (in_window now) (request_timestamps st)) /\
  (Sorted Z.le (map fst (token_usage_timestamps st)) ->
     kept_tokens = filter (fun p => in_window now (fst p)) (token_usage_timestamps st)).
Proof.
  intros c kept_requests kept_tokens.
  split; [| split].
  - destruct (prune_front_split c (request_timestamps st)) as [d [E H]].
    exists d. repeat split; [exact E | exact H | apply prune_front_head].
  - destruct (prune_front_tokens_split c (token_usage_timestamps st)) as [d [E H]].
    exists d. repeat split; [exact E | exact H | apply prune_front_tokens_head].
  - unfold increment_request_count, add_token_usage, get_rate_limit_headers,
      header_value; simpl; fold c.
    repeat split; try reflexivity.
    + intros Hr. apply prune_front_sorted. exact Hr.
    + intros Ht. apply prune_front_tokens_sorted. exact Ht.
Qed.

(* ------------------------------------------------------------------ *)
(** ** Protocol B *)

Lemma delta_loop_run (ctx : StreamCtx) (chunks : list (list ascii)) :
  forall k s,
    delta_loop ctx k chunks s =
    (tt, mkGenState (gen_sequence_number s + N.of_nat (length chunks))
                    (gen_response s)
                    (gen_yielded s ++ delta_events ctx k (gen_sequence_number s) chunks)).
Proof.
  induction chunks as [| c rest IH]; intros k [n r y]; simpl.
  - rewrite N.add_0_r, app_nil_r. reflexivity.
  - unfold gen_bind, get_sequence_number, yield, incr_sequence_number. simpl.
    rewrite IH. simpl. f_equal. f_equal.
    + lia.
    + rewrite <- app_assoc. reflexivity.
Qed.

Lemma sequence_numbers_app (l1 l2 : list RespSse) :
  sequence_numbers (l1 ++ l2) = sequence_numbers l1 ++ sequence_numbers l2.
Proof. unfold sequence_numbers. apply flat_map_app. Qed.

Lemma usage_carriers_app (l1 l2 : list RespSse) :
  usage_carriers (l1 ++ l2) = usage_carriers l1 ++ usage_carriers l2.
Proof. unfold usage_carriers. apply flat_map_app. Qed.

Lemma delta_events_sequence_numbers (ctx : StreamCtx) (chunks : list (list ascii)) :
  forall k n,
    sequence_numbers (delta_events ctx k n chunks)
    = map N.of_nat (seq (N.to_nat n) (length chunks)).
Proof.
  induction chunks as [| c rest IH]; intros k n; simpl; [reflexivity |].
  rewrite N2Nat.id. f_equal. rewrite IH. f_equal. f_equal. lia.
Qed.

Lemma delta_events_usage_carriers (ctx : StreamCtx) (chunks : list (list ascii)) :
  forall k n, usage_carriers (delta_events ctx k n chunks) = [].
Proof. induction chunks as [| c rest IH]; intros k n; simpl; auto. Qed.

(** C5.  In every full Protocol B stream the sequence numbers are
    0, 1, ..., 9 + k (k the number of 5-byte chunks of the content), in
    order, with no gap or repeat; the only event whose embedded response
    snapshot has a populated usage field is [response.completed], and its
    usage carries the 128 mock reasoning tokens; the [[DONE]] data event is
    the last event. *)
Theorem C5_protocol_b_stream (ctx : StreamCtx) :
  let evs := responses_stream_events ctx in
  let k := length (chunks5 (list_ascii_of_string (sc_content ctx))) in
  sequence_numbers evs = map N.of_nat (seq 0 (10 + k)) /\
  usage_carriers evs =
    [("response.completed",
      mkResponseUsage (sc_prompt_tokens ctx) (mkInputTokensDetails 0)
        (add_u32 (sc_completion_tokens ctx) 128) (mkOutputTokensDetails 128)
        (add_u32 (sc_total_tokens ctx) 128))] /\
  last evs (RespDataEvent "") = RespDataEvent "[DONE]".
Proof.
  intros evs k. subst evs.
  unfold responses_stream_events, responses_stream_body.
  cbv [gen_bind gen_ret get_sequence_number get_response yield
       incr_sequence_number modify_response
       gen_sequence_number gen_response gen_yielded].
  rewrite delta_loop_run. cbn [gen_sequence_number gen_response gen_yielded snd].
  fold k.
  split; [| split].
  - rewrite !sequence_numbers_app, delta_events_sequence_numbers. fold k.
    replace (10 + k)%nat with (6 + (k + 4))%nat by lia.
    rewrite seq_app, seq_app, !map_app.
    unfold sequence_numbers at 1 2 3 4 5 6 7 8 9 10 11.
    cbn [map seq app flat_map payload_sequence_number].
    rewrite <- !app_assoc. cbn [app].
    repeat f_equal; lia.
  - rewrite !usage_carriers_app, delta_events_usage_carriers. reflexivity.
  - apply last_last.
Qed.

(* ------------------------------------------------------------------ *)
(** ** C2: rate-limit headers on every response *)

(** C2 (code bug).  On the test configuration ([response_length = "10"],
    no fault, [rpm = 60], [tpm = 150000]) a request with [stream: false]
    gets the six [x-ratelimit-*] headers from both endpoints, but the same
    request with [stream: true] gets none: both streaming paths return
    [Sse::new(stream).into_response()] without the header map ([responses]
    even computes it and drops it). *)
Theorem C2_streaming_responses_lack_ratelimit_headers :
  let six := ["x-ratelimit-limit-requests"; "x-ratelimit-remaining-requests";
              "x-ratelimit-reset-requests"; "x-ratelimit-limit-tokens";
              "x-ratelimit-remaining-tokens"; "x-ratelimit-reset-tokens"] in
  outcome_ratelimit_headers
    (chat_completions sample_env (fresh_state test_args) (sample_chat_request false))
    = Some six /\
  outcome_ratelimit_headers
    (chat_completions sample_env (fresh_state test_args) (sample_chat_request true))
    = Some [] /\
  outcome_ratelimit_headers
    (responses sample_env (fresh_state test_args) (sample_responses_request false))
    = Some six /\
  outcome_ratelimit_headers
    (responses sample_env (fresh_state test_args) (sample_responses_request true))
    = Some [].
Proof. vm_compute. repeat split. Qed.

(* ------------------------------------------------------------------ *)
(** ** C3: the length of the generated content *)

(** C3 (code bug).  For every requested length [L] with [0 < L < 5],
    [generate_lorem_content] returns the empty string, whatever the word
    stream: [L / 5 = 0] words are asked from [lipsum] and the truncation
    cannot lengthen the text. *)
Theorem C3_short_lengths_give_empty_content (chain : nat -> string) (L : N) :
  (0 < L < 5)%N -> generate_lorem_content chain L = "".
Proof.
  intros [Hpos H5]. unfold generate_lorem_content.
  replace (L =? 0)%N with false by (symmetry; apply N.eqb_neq; lia).
  rewrite (N.div_small L 5) by lia.
  unfold truncate. destruct (N.to_nat L); reflexivity.
Qed.

(** The requested length 3 gives the empty text. *)
Lemma C3_short_lengths_give_empty_content_witness :
  (0 < 3 < 5)%N /\ generate_lorem_content lorem_chain 3 = "".
Proof.
  split; [lia |]. apply C3_short_lengths_give_empty_content. lia.
Defined.

(* ------------------------------------------------------------------ *)
(** ** C4: Protocol A on "a b c" *)

(** C4.  The chat-completion stream over the content "a b c" is exactly six
    events: the role chunk, the deltas "a ", "b ", "c ", the final chunk
    with an empty delta, the finish reason and the usage, then the [[DONE]]
    data event, which is the last. *)
Theorem C4_protocol_a_abc (id : string) (created : N) (model : string) (usage : Usage) :
  let chunk choice u :=
    ChatChunkEvent (mkChatCompletionChunk id "chat.completion.chunk" created model
                      [choice] u) in
  chat_stream_events id created model "a b c" usage =
  [chunk (mkChunkChoice 0 (mkChoiceDelta (Some "assistant") None) None) None;
   chunk (mkChunkChoice 0 (mkChoiceDelta None (Some "a ")) None) None;
   chunk (mkChunkChoice 0 (mkChoiceDelta None (Some "b ")) None) None;
   chunk (mkChunkChoice 0 (mkChoiceDelta None (Some "c ")) None) None;
   chunk (mkChunkChoice 0 (mkChoiceDelta None None) (Some "stop")) (Some usage);
   ChatDataEvent "[DONE]"].
Proof. reflexivity. Qed.

(* ------------------------------------------------------------------ *)
(** ** C7: the fault injector *)

(** C7.  For a draw in [0, 100), [should_return_error] returns [Some code]
    exactly when a code and a rate are configured and the draw is below the
    rate, and [None] otherwise; with rate 100 and a code it always returns
    that code, with rate 0 it never returns one. *)
Theorem C7_fault_injector (draw : N) (a : Args) :
  (draw < 100)%N ->
  (forall code, should_return_error draw a = Some code <->
     exists rate, error_code a = Some code /\ error_rate a = Some rate /\ (draw < rate)%N) /\
  (should_return_error draw a = None <->
     forall code rate, error_code a = Some code -> error_rate a = Some rate ->
     (rate <= draw)%N) /\
  (forall code, error_code a = Some code -> error_rate a = Some 100%N ->
     should_return_error draw a = Some code) /\
  (error_rate a = Some 0%N -> should_return_error draw a = None).
Proof.
  intros Hd. unfold should_return_error.
  destruct (error_code a) as [c |], (error_rate a) as [r |].
  2-4: split; [| split; [| split]];
    [ intros code; split; [discriminate | intros (rate & Hc & Hr & _); congruence]
    | split; [intros _ code rate Hc Hr; congruence | reflexivity]
    | intros code Hc Hr; congruence
    | intros; reflexivity ].
  destruct (N.ltb_spec draw r) as [Hlt | Hge].
  - split; [| split; [| split]].
    + intros code; split.
      * intros H. injection H as <-. exists r. auto.
      * intros (rate & Hc & Hr & _). congruence.
    + split; [discriminate |].
      intros H. specialize (H c r eq_refl eq_refl). lia.
    + intros code Hc _. congruence.
    + intros Hr. injection Hr as ->. lia.
  - split; [| split; [| split]].
    + intros code; split; [discriminate |].
      intros (rate & Hc & Hr & Hlt). injection Hr as <-. lia.
    + split; [| reflexivity].
      intros _ code rate Hc Hr. injection Hr as <-. exact Hge.
    + intros code Hc Hr. injection Hr as ->. lia.
    + reflexivity.
Qed.

(** A code and rate 100 give the code for the draw 42. *)
Lemma C7_fault_injector_witness :
  (42 < 100)%N /\
  should_return_error 42 (mkArgs (Some "10") (Some 503%N) (Some 100%N) 60 150000)
  = Some 503%N.
Proof.
  split; [lia |].
  destruct (C7_fault_injector 42 (mkArgs (Some "10") (Some 503%N) (Some 100%N) 60 150000))
    as (_ & _ & H & _); [lia |].
  apply H; reflexivity.
Defined.

(* ------------------------------------------------------------------ *)
(** ** C6: the token-axis check *)

(** C6 (spec-modelled check).  In both handlers, from the total token
    count on: when the token-axis check reports exceeded, the response is a
    429 with the rate-limit envelope, the total is not queued (the token
    queue is only pruned, and every later check sees the same window as
    before the request); otherwise the total is queued exactly once. *)
Theorem C6_token_quota (env : Env) (st : ServerState) (content : string)
  (prompt_tokens completion_tokens : N)
  (cpayload : ChatCompletionRequest) (rpayload : ResponsesRequest) :
  let now := clock env in
  let total := add_u32 prompt_tokens completion_tokens in
  let q := token_usage_timestamps st in
  let kept := prune_front_tokens (sixty_seconds_ago now) q in
  let exceeded := fst (check_token_limit_exceeded now total st) in
  let quota_ok (o : Outcome) :=
    if exceeded then
      exists r st', o = Some (r, st') /\ status r = 429%N /\
        body r = BodyJson
          (JObj [("error", JObj [("message", JStr "You have exceeded your token quota.");
                                 ("type", JStr "rate_limit_error");
                                 ("code", JStr "rate_limit_exceeded")])]) /\
        token_usage_timestamps st' = kept /\
        (forall later, (now <= later)%Z ->
           prune_front_tokens (sixty_seconds_ago later) (token_usage_timestamps st')
           = prune_front_tokens (sixty_seconds_ago later) q)
    else
      exists r st', o = Some (r, st') /\
        token_usage_timestamps st' = kept ++ [(now, total)] in
  quota_ok (chat_completions_token_stage env st cpayload content
              prompt_tokens completion_tokens) /\
  quota_ok (responses_token_stage env st rpayload content
              prompt_tokens completion_tokens).
Proof.
  intros now total q kept exceeded quota_ok.
  unfold quota_ok, exceeded, chat_completions_token_stage, responses_token_stage,
    check_token_limit_exceeded.
  fold now total q kept.
  assert (Hmono : forall later, (now <= later)%Z ->
            prune_front_tokens (sixty_seconds_ago later) kept
            = prune_front_tokens (sixty_seconds_ago later) q).
  { intros later Hl. apply prune_front_tokens_mono.
    unfold sixty_seconds_ago. lia. }
  assert (Hidem : prune_front_tokens (sixty_seconds_ago now) kept = kept).
  { apply prune_front_tokens_mono. lia. }
  assert (Happ : prune_front_tokens (sixty_seconds_ago now) (kept ++ [(now, total)])
                 = kept ++ [(now, total)]).
  { apply prune_front_tokens_app_in. apply sixty_seconds_ago_le. }
  cbn [fst].
  destruct (tpm (args st) <? sum_tokens kept + total)%N.
  - split; do 2 eexists; split; try reflexivity;
      cbn [set_token_usage_timestamps token_usage_timestamps status body args];
      repeat split; try reflexivity; cbn; rewrite ?Hidem; auto.
  - unfold add_token_usage. cbn [set_token_usage_timestamps token_usage_timestamps].
    rewrite Hidem.
    split; [destruct (match chat_stream cpayload with Some b => b | None => false end)
           |destruct (match resp_stream rpayload with Some b => b | None => false end)];
      do 2 eexists; split; try reflexivity; cbn; rewrite ?Happ; reflexivity.
Qed.

(* ------------------------------------------------------------------ *)
(** ** C8: tokenization failures *)

(** C8.  When the tokenizer fails ([cl100k_base()] returns an error), both
    handlers behave exactly as with a tokenizer that counts zero tokens for
    every text: the failure never reaches the client. *)
Theorem C8_tokenizer_failure_counts_zero (env : Env) (st : ServerState) (e : string)
  (cpayload : ChatCompletionRequest) (rpayload : ResponsesRequest) :
  cl100k_base env = Err e ->
  chat_completions env st cpayload
    = chat_completions (with_cl100k_base env (Ok zero_bpe)) st cpayload /\
  responses env st rpayload
    = responses (with_cl100k_base env (Ok zero_bpe)) st rpayload.
Proof.
  intros He. destruct env; cbn in He; subst.
  split; reflexivity.
Qed.

(** The tests' chat request under a failing tokenizer: a 200 response
    whose usage counts zero tokens. *)
Lemma C8_tokenizer_failure_counts_zero_witness :
  cl100k_base failing_tokenizer_env = Err "cl100k_base: vocabulary not loaded" /\
  chat_completions failing_tokenizer_env (fresh_state test_args) (sample_chat_request false)
  = chat_completions (with_cl100k_base failing_tokenizer_env (Ok zero_bpe))
      (fresh_state test_args) (sample_chat_request false) /\
  option_map (fun p => status (fst p))
    (chat_completions failing_tokenizer_env (fresh_state test_args)
       (sample_chat_request false)) = Some 200%N.
Proof.
  split; [reflexivity |]. split; [| vm_compute; reflexivity].
  apply (C8_tokenizer_failure_counts_zero failing_tokenizer_env (fresh_state test_args)
           "cl100k_base: vocabulary not loaded" (sample_chat_request false)
           (sample_responses_request false)).
  reflexivity.
Defined.

(* ------------------------------------------------------------------ *)
(** ** C10: the length resolver's defaults *)

(** C10.  Without a configured length the resolver gives 0; a length with
    no colon that does not parse as a [usize] gives 0; in a [min:max] range
    an unparseable minimum is 0 and an unparseable maximum is 100 (the draw
    [gen_range(min..=max)] is then taken on that range, and panics when the
    parsed minimum exceeds the default maximum 100).  A length that
    resolves to 0 makes [chat_completions] answer 204 with an empty JSON
    object once the request quota and the fault injector let it through. *)
Theorem C10_length_resolver_defaults (g : N -> N -> N) (a : Args) :
  (response_length a = None -> get_response_length g a = Some 0%N) /\
  (forall s, response_length a = Some s -> index 0 ":" s = None ->
     parse_usize s = None -> get_response_length g a = Some 0%N) /\
  (forall s pos max, response_length a = Some s -> index 0 ":" s = Some pos ->
     parse_usize (substring 0 pos s) = None ->
     parse_usize (substring (S pos) (String.length s - S pos) s) = Some max ->
     get_response_length g a = Some (g 0%N max)) /\
  (forall s pos min, response_length a = Some s -> index 0 ":" s = Some pos ->
     parse_usize (substring 0 pos s) = Some min ->
     parse_usize (substring (S pos) (String.length s - S pos) s) = None ->
     get_response_length g a = if (min <=? 100)%N then Some (g min 100%N) else None) /\
  (forall s pos, response_length a = Some s -> index 0 ":" s = Some pos ->
     parse_usize (substring 0 pos s) = None ->
     parse_usize (substring (S pos) (String.length s - S pos) s) = None ->
     get_response_length g a = Some (g 0%N 100%N)) /\
  (forall env st payload, args st = a -> gen_range_incl env = g ->
     fst (check_request_limit_exceeded (clock env) st) = false ->
     should_return_error (error_draw env) a = None ->
     get_response_length g a = Some 0%N ->
     exists r st', chat_completions env st payload = Some (r, st') /\
       status r = 204%N /\ body r = BodyJson (JObj [])).
Proof.
  split; [| split; [| split; [| split; [| split]]]].
  1-5: unfold get_response_length, parse_usize_or.
  - intros H. rewrite H. reflexivity.
  - intros s H Hi Hp. rewrite H, Hi, Hp. reflexivity.
  - intros s pos max H Hi Hmin Hmax. rewrite H, Hi, Hmin, Hmax.
    destruct (N.leb_spec 0 max); [reflexivity | lia].
  - intros s pos min H Hi Hmin Hmax. rewrite H, Hi, Hmin, Hmax. reflexivity.
  - intros s pos H Hi Hmin Hmax. rewrite H, Hi, Hmin, Hmax. reflexivity.
  - intros env st payload Ha Hg Hc Hf Hl. subst a g.
    unfold chat_completions.
    unfold check_request_limit_exceeded in *.
    cbn [fst] in Hc. rewrite Hc.
    cbn [increment_request_count set_request_timestamps args].
    rewrite Hf, Hl.
    do 2 eexists. split; [reflexivity |]. split; reflexivity.
Qed.

(** The length "abc" resolves to 0, and the tests' chat request is answered
    with 204. *)
Lemma C10_length_resolver_defaults_witness :
  get_response_length (fun lo _ => lo) unparseable_length_args = Some 0%N /\
  option_map (fun p => status (fst p))
    (chat_completions sample_env (fresh_state unparseable_length_args)
       (sample_chat_request false)) = Some 204%N.
Proof.
  destruct (C10_length_resolver_defaults (fun lo _ => lo) unparseable_length_args)
    as (_ & H2 & _ & _ & _ & H6).
  split.
  - apply (H2 "abc"); reflexivity.
  - destruct (H6 sample_env (fresh_state unparseable_length_args) (sample_chat_request false)
                eq_refl eq_refl eq_refl eq_refl eq_refl)
      as (r & st' & Hr & Hs & _).
    rewrite Hr. cbn. rewrite Hs. reflexivity.
Defined.

(** The sliding window at 61 s over [two_requests_state]: the request of
    0 s and the tokens of 0 s are dropped. *)
Lemma C1_sliding_window_witness :
  Sorted Z.le (request_timestamps two_requests_state) /\
  Sorted Z.le (map fst (token_usage_timestamps two_requests_state)) /\
  request_timestamps (increment_request_count 61000000000 two_requests_state)
    = [30000000000%Z; 61000000000%Z] /\
  token_usage_timestamps (add_token_usage 61000000000 7 two_requests_state)
    = [(61000000000%Z, 7%N)] /\
  prune_front (sixty_seconds_ago 61000000000) (request_timestamps two_requests_state)
    = filter (in_window 61000000000) (request_timestamps two_requests_state).
Proof.
  assert (Hr : Sorted Z.le (request_timestamps two_requests_state))
    by (repeat constructor; cbn; lia).
  assert (Ht : Sorted Z.le (map fst (token_usage_timestamps two_requests_state)))
    by (repeat constructor).
  destruct (C1_sliding_window 61000000000 7 two_requests_state)
    as (_ & _ & H1 & H2 & _ & _ & _ & _ & H9 & _).
  split; [exact Hr |]. split; [exact Ht |].
  rewrite H1, H2. split; [reflexivity | split; [reflexivity |]].
  exact (H9 Hr).
Defined.

(* ------------------------------------------------------------------ *)
(** ** Further properties of the tracker *)

Lemma prune_front_idem (c : Z) (q : list Z) :
  prune_front c (prune_front c q) = prune_front c q.
Proof.
  pose proof (prune_front_head c q) as H.
  destruct (prune_front c q) as [| t r]; simpl; [reflexivity |].
  replace (t <? c)%Z with false by lia. reflexivity.
Qed.

Lemma prune_front_tokens_idem (c : Z) (q : list (Z * N)) :
  prune_front_tokens c (prune_front_tokens c q) = prune_front_tokens c q.
Proof. apply prune_front_tokens_mono. lia. Qed.

Lemma prune_front_app_in (c : Z) (q : list Z) (t : Z) :
  (c <= t)%Z -> prune_front c (prune_front c q ++ [t]) = prune_front c q ++ [t].
Proof.
  intros Ht. pose proof (prune_front_head c q) as H.
  destruct (prune_front c q) as [| t0 r]; simpl.
  - replace (t <? c)%Z with false by lia. reflexivity.
  - replace (t0 <? c)%Z with false by lia. reflexivity.
Qed.

Lemma sorted_app_suffix (d p : list Z) : Sorted Z.le (d ++ p) -> Sorted Z.le p.
Proof.
  induction d as [| x d IH]; simpl; [auto |].
  intros H. apply Sorted_inv in H. apply IH, H.
Qed.

Lemma sorted_snoc (l : list Z) (x : Z) :
  Sorted Z.le l -> Forall (fun t => (t <= x)%Z) l -> Sorted Z.le (l ++ [x]).
Proof.
  induction l as [| a l IH]; simpl; intros Hs Hf.
  - repeat constructor.
  - apply Sorted_inv in Hs as [Hs Hh]. inversion Hf; subst.
    constructor; [apply IH; assumption |].
    destruct l as [| b l]; simpl; constructor; [assumption |].
    inversion Hh; assumption.
Qed.

Lemma duration_secs_roundtrip (x : N) : duration_as_secs (duration_from_secs x) = x.
Proof. unfold duration_as_secs, duration_from_secs, nanos_per_sec. apply N.div_mul. lia. Qed.

(** The seconds of a reset duration computed from an oldest entry inside
    the window and not later than [now]. *)
Lemma reset_secs_le_60 (oldest now : Z) :
  (sixty_seconds_ago now <= oldest)%Z -> (oldest <= now)%Z ->
  (duration_as_secs (duration_from_secs
     (duration_as_secs (duration_since_or_zero (oldest + Z.of_N sixty_secs) now))) <= 60)%N.
Proof.
  unfold sixty_seconds_ago; intros H1 H2. rewrite duration_secs_roundtrip.
  unfold duration_since_or_zero, sixty_secs, duration_from_secs, nanos_per_sec in *.
  destruct (Z.leb_spec now (oldest + Z.of_N (60 * 1000000000))) as [Hle | Hgt].
  - unfold duration_as_secs, nanos_per_sec.
    apply N.lt_succ_r. apply N.Div0.div_lt_upper_bound. lia.
  - lia.
Qed.

Lemma sum_tokens_snoc (q : list (Z * N)) (t : Z) (n : N) :
  sum_tokens (q ++ [(t, n)]) = add_u32 (sum_tokens q) n.
Proof. unfold sum_tokens. rewrite fold_left_app. reflexivity. Qed.

(** X1.  Both pruning loops of [server_state.rs] pop a prefix of entries
    older than the cutoff and stop at the first entry that is not: what
    is left is a suffix of the queue whose first entry, if any, is at or
    after the cutoff (a later entry may still be older). *)
Theorem prune_loops_drop_expired_prefix (c : Z) (q : list Z) (qt : list (Z * N)) :
  (exists dropped, q = dropped ++ prune_front c q /\
     Forall (fun t => (t < c)%Z) dropped /\
     match prune_front c q with [] => True | t :: _ => (c <= t)%Z end) /\
  (exists dropped, qt = dropped ++ prune_front_tokens c qt /\
     Forall (fun p => (fst p < c)%Z) dropped /\
     match prune_front_tokens c qt with [] => True | p :: _ => (c <= fst p)%Z end).
Proof.
  split.
  - destruct (prune_front_split c q) as [d [E H]].
    exists d. repeat split; [exact E | exact H | apply prune_front_head].
  - destruct (prune_front_tokens_split c qt) as [d [E H]].
    exists d. repeat split; [exact E | exact H | apply prune_front_tokens_head].
Qed.

Lemma ordered_upto_ops (now now' : Z) (tokens : N) (st : ServerState) :
  (now <= now')%Z -> queues_ordered_upto now st ->
  queues_ordered_upto now' (increment_request_count now' st) /\
  queues_ordered_upto now' (add_token_usage now' tokens st) /\
  queues_ordered_upto now' (snd (get_rate_limit_headers now' st)) /\
  queues_ordered_upto now' (snd (check_request_limit_exceeded now' st)) /\
  queues_ordered_upto now' (snd (check_token_limit_exceeded now' tokens st)).
Proof.
  intros Hn [Hrs [Hrf [Hts Htf]]].
  set (c := sixty_seconds_ago now').
  destruct (prune_front_split c (request_timestamps st)) as [dr [Er _]].
  destruct (prune_front_tokens_split c (token_usage_timestamps st)) as [dt [Et _]].
  assert (Hrs' : Sorted Z.le (prune_front c (request_timestamps st))).
  { apply (sorted_app_suffix dr). rewrite <- Er. exact Hrs. }
  assert (Hrf' : Forall (fun t => (t <= now')%Z) (prune_front c (request_timestamps st))).
  { rewrite Er in Hrf. apply Forall_app in Hrf as [_ H].
    eapply Forall_impl; [| exact H]. simpl. intros; lia. }
  assert (Hts' : Sorted Z.le (map fst (prune_front_tokens c (token_usage_timestamps st)))).
  { apply (sorted_app_suffix (map fst dt)). rewrite <- map_app, <- Et. exact Hts. }
  assert (Htf' : Forall (fun t => (t <= now')%Z)
                   (map fst (prune_front_tokens c (token_usage_timestamps st)))).
  { rewrite Et, map_app in Htf. apply Forall_app in Htf as [_ H].
    eapply Forall_impl; [| exact H]. simpl. intros; lia. }
  assert (Hrf0 : Forall (fun t => (t <= now')%Z) (request_timestamps st)).
  { eapply Forall_impl; [| exact Hrf]. simpl. intros; lia. }
  assert (Htf0 : Forall (fun t => (t <= now')%Z) (map fst (token_usage_timestamps st))).
  { eapply Forall_impl; [| exact Htf]. simpl. intros; lia. }
  unfold queues_ordered_upto, increment_request_count, add_token_usage,
    get_rate_limit_headers, check_request_limit_exceeded, check_token_limit_exceeded;
    simpl; fold c.
  repeat split; try assumption.
  - apply sorted_snoc; assumption.
  - apply Forall_app. split; [assumption | repeat constructor; lia].
  - rewrite map_app. apply sorted_snoc; assumption.
  - rewrite map_app. apply Forall_app. split; [assumption | repeat constructor; simpl; lia].
Qed.

(** X2.  With a clock that does not go backwards, the tracker keeps both
    queues chronologically ordered and never holds an entry later than the
    current instant: [increment_request_count], [add_token_usage] and
    [get_rate_limit_headers] at [now' >= now] map a state ordered up to
    [now] to a state ordered up to [now']. *)
Theorem tracker_keeps_queues_ordered (now now' : Z) (tokens : N) (st : ServerState) :
  (now <= now')%Z -> queues_ordered_upto now st ->
  queues_ordered_upto now' (increment_request_count now' st) /\
  queues_ordered_upto now' (add_token_usage now' tokens st) /\
  queues_ordered_upto now' (snd (get_rate_limit_headers now' st)).
Proof.
  intros Hn Ho.
  destruct (ordered_upto_ops now now' tokens st Hn Ho) as [H1 [H2 [H3 _]]].
  split; [exact H1 | split; [exact H2 | exact H3]].
Qed.

(** Requests at 0 s and 30 s and 5 tokens at 0 s, ordered up to 31 s, stay
    ordered after one more request counted at 40 s. *)
Lemma tracker_keeps_queues_ordered_witness :
  queues_ordered_upto 31000000000 two_requests_state /\
  queues_ordered_upto 40000000000 (increment_request_count 40000000000 two_requests_state).
Proof.
  assert (H : queues_ordered_upto 31000000000 two_requests_state).
  { unfold queues_ordered_upto, two_requests_state; simpl.
    repeat split; repeat constructor; lia. }
  split; [exact H |].
  apply (tracker_keeps_queues_ordered 31000000000 40000000000 0 two_requests_state);
    [lia | exact H].
Defined.

(** X3.  Computing the headers is idempotent at a fixed instant: a second
    [get_rate_limit_headers] at the same [now] reports the same six values
    and leaves the queues as the first one left them. *)
Theorem get_rate_limit_headers_idempotent (now : Z) (st : ServerState) :
  get_rate_limit_headers now (snd (get_rate_limit_headers now st))
  = get_rate_limit_headers now st.
Proof.
  unfold get_rate_limit_headers at 2. simpl.
  unfold get_rate_limit_headers. simpl.
  rewrite prune_front_idem, prune_front_tokens_idem. reflexivity.
Qed.

(** X4.  A request and its tokens counted at an instant are visible in the
    headers computed at that same instant, in the order the handlers call
    them ([increment_request_count], [add_token_usage],
    [get_rate_limit_headers]): the queues are the kept entries plus the new
    one, and the remaining-requests and remaining-tokens headers subtract
    them. *)
Theorem counted_usage_visible_at_once (now : Z) (tokens : N) (st : ServerState) :
  let c := sixty_seconds_ago now in
  let kept := prune_front c (request_timestamps st) in
  let kept_t := prune_front_tokens c (token_usage_timestamps st) in
  let '(hs, st') :=
    get_rate_limit_headers now (add_token_usage now tokens (increment_request_count now st)) in
  request_timestamps st' = kept ++ [now] /\
  token_usage_timestamps st' = kept_t ++ [(now, tokens)] /\
  header_value "x-ratelimit-remaining-requests" hs
    = Some (N_to_string (saturating_sub (rpm (args st)) (N.of_nat (length kept) + 1))) /\
  header_value "x-ratelimit-remaining-tokens" hs
    = Some (N_to_string (saturating_sub (tpm (args st)) (add_u32 (sum_tokens kept_t) tokens))).
Proof.
  intros c kept kept_t.
  unfold get_rate_limit_headers, add_token_usage, increment_request_count. simpl.
  fold c.
  rewrite prune_front_app_in by (subst c; apply sixty_seconds_ago_le).
  rewrite prune_front_tokens_app_in by (subst c; apply sixty_seconds_ago_le).
  fold kept kept_t. unfold header_value. simpl.
  rewrite sum_tokens_snoc, length_app, Nat2N.inj_add. repeat split.
Qed.

(** X5.  When no recorded entry is later than [now], each reset header is
    a whole number of seconds between 0 and 60 ("0s" up to "1m"), and it is
    "0s" whenever that axis is below its limit. *)
Theorem reset_headers_within_window (now : Z) (st : ServerState) :
  Forall (fun t => (t <= now)%Z) (request_timestamps st) ->
  Forall (fun p => (fst p <= now)%Z) (token_usage_timestamps st) ->
  let '(hs, st') := get_rate_limit_headers now st in
  (exists s, (s <= 60)%N /\
     header_value "x-ratelimit-reset-requests" hs = Some (format_duration_secs s) /\
     ((N.of_nat (length (request_timestamps st')) < rpm (args st))%N -> s = 0%N)) /\
  (exists s, (s <= 60)%N /\
     header_value "x-ratelimit-reset-tokens" hs = Some (format_duration_secs s) /\
     ((sum_tokens (token_usage_timestamps st') < tpm (args st))%N -> s = 0%N)).
Proof.
  intros Hr Ht.
  set (c := sixty_seconds_ago now).
  pose proof (prune_front_head c (request_timestamps st)) as Hhr.
  pose proof (prune_front_tokens_head c (token_usage_timestamps st)) as Hht.
  destruct (prune_front_split c (request_timestamps st)) as [dr [Er _]].
  destruct (prune_front_tokens_split c (token_usage_timestamps st)) as [dt [Et _]].
  rewrite Er in Hr. apply Forall_app in Hr as [_ Hr].
  rewrite Et in Ht. apply Forall_app in Ht as [_ Ht].
  unfold get_rate_limit_headers, header_value. simpl. fold c.
  split.
  - eexists. split; [| split; [reflexivity |]].
    + destruct (N.ltb_spec (N.of_nat (length (prune_front c (request_timestamps st))))
                  (rpm (args st))).
      * vm_compute. discriminate.
      * destruct (prune_front c (request_timestamps st)) as [| oldest r]; [vm_compute; discriminate |].
        inversion Hr; subst. apply reset_secs_le_60; assumption.
    + intros Hlt. apply N.ltb_lt in Hlt. rewrite Hlt. reflexivity.
  - eexists. split; [| split; [reflexivity |]].
    + destruct (N.ltb_spec (sum_tokens (prune_front_tokens c (token_usage_timestamps st)))
                  (tpm (args st))).
      * vm_compute. discriminate.
      * destruct (prune_front_tokens c (token_usage_timestamps st)) as [| [oldest n] r];
          [vm_compute; discriminate |].
        inversion Ht; subst. apply reset_secs_le_60; assumption.
    + intros Hlt. apply N.ltb_lt in Hlt. rewrite Hlt. reflexivity.
Qed.

(** At 31 s, with requests at 0 s and 30 s and [rpm = 60]. *)
Lemma reset_headers_within_window_witness :
  Forall (fun t => (t <= 31000000000)%Z) (request_timestamps two_requests_state) /\
  Forall (fun p => (fst p <= 31000000000)%Z) (token_usage_timestamps two_requests_state) /\
  (let '(hs, st') := get_rate_limit_headers 31000000000 two_requests_state in
   (exists s, (s <= 60)%N /\
      header_value "x-ratelimit-reset-requests" hs = Some (format_duration_secs s) /\
      ((N.of_nat (length (request_timestamps st')) < rpm (args two_requests_state))%N -> s = 0%N)) /\
   (exists s, (s <= 60)%N /\
      header_value "x-ratelimit-reset-tokens" hs = Some (format_duration_secs s) /\
      ((sum_tokens (token_usage_timestamps st') < tpm (args two_requests_state))%N -> s = 0%N))).
Proof.
  assert (Hr : Forall (fun t => (t <= 31000000000)%Z) (request_timestamps two_requests_state))
    by (simpl; repeat constructor; lia).
  assert (Ht : Forall (fun p => (fst p <= 31000000000)%Z)
                 (token_usage_timestamps two_requests_state))
    by (simpl; repeat constructor; simpl; lia).
  split; [exact Hr | split; [exact Ht |]].
  exact (reset_headers_within_window 31000000000 two_requests_state Hr Ht).
Defined.

(* ------------------------------------------------------------------ *)
(** ** Further properties of the length resolver and the generator *)

Lemma decimal_value_ge (d : Decimal.uint) : forall acc, (acc <= decimal_value acc d)%N.
Proof.
  induction d; intros acc; cbn [decimal_value]; try lia;
    (eapply N.le_trans; [| apply IHd]; lia).
Qed.

Lemma parse_digits_cons (acc : N) (c : ascii) (s : string) (k : N) :
  digit_value c = Some k -> (acc * 10 + k < usize_bound)%N ->
  parse_digits acc (String c s) = parse_digits (acc * 10 + k) s.
Proof.
  intros Hd Hb. simpl. rewrite Hd. apply N.ltb_lt in Hb. rewrite Hb. reflexivity.
Qed.

Lemma parse_digits_decimal (d : Decimal.uint) : forall acc,
  (decimal_value acc d < usize_bound)%N ->
  parse_digits acc (uint_to_string d) = Some (decimal_value acc d).
Proof.
  induction d; intros acc H; cbn [uint_to_string decimal_value] in *;
    [reflexivity | ..];
    (erewrite parse_digits_cons;
     [apply IHd; exact H | reflexivity |
      eapply N.le_lt_trans; [apply decimal_value_ge | exact H]]).
Qed.

Lemma of_uint_acc_value (d : Decimal.uint) : forall p,
  Npos (Pos.of_uint_acc d p) = decimal_value (Npos p) d.
Proof.
  induction d; intros p; cbn [Pos.of_uint_acc decimal_value]; [reflexivity | ..];
    rewrite IHd; f_equal; lia.
Qed.

Lemma of_uint_value (d : Decimal.uint) : N.of_uint d = decimal_value 0 d.
Proof.
  unfold N.of_uint.
  induction d; cbn [Pos.of_uint decimal_value]; try rewrite of_uint_acc_value;
    try reflexivity; exact IHd.
Qed.

Lemma to_uint_not_nil (n : N) : N.to_uint n <> Decimal.Nil.
Proof.
  intros E. pose proof (DecimalN.Unsigned.of_to n) as H. rewrite E in H.
  simpl in H. subst n. discriminate E.
Qed.

Lemma parse_usize_N_to_string (n : N) :
  (n < usize_bound)%N -> parse_usize (N_to_string n) = Some n.
Proof.
  intros Hn. unfold N_to_string.
  assert (Hv : decimal_value 0 (N.to_uint n) = n)
    by (rewrite <- of_uint_value; apply DecimalN.Unsigned.of_to).
  assert (Hp : parse_digits 0 (uint_to_string (N.to_uint n)) = Some n).
  { rewrite parse_digits_decimal; rewrite Hv; [reflexivity | exact Hn]. }
  pose proof (to_uint_not_nil n) as Hnil.
  destruct (N.to_uint n); [congruence | ..]; exact Hp.
Qed.

Lemma index_colon_uint (d : Decimal.uint) (t : string) :
  index 0 ":" (uint_to_string d ++ ":" ++ t) = Some (String.length (uint_to_string d)).
Proof.
  induction d; simpl in *; try rewrite IHd; try reflexivity. destruct t; reflexivity.
Qed.

Lemma index_colon_uint_none (d : Decimal.uint) :
  index 0 ":" (uint_to_string d) = None.
Proof.
  induction d; simpl; try rewrite IHd; reflexivity.
Qed.

Lemma substring_prefix (a b : string) : substring 0 (String.length a) (a ++ b) = a.
Proof.
  induction a as [| c a IH]; simpl; [destruct b; reflexivity | rewrite IH; reflexivity].
Qed.

Lemma substring_skip (a t : string) (k m : nat) :
  substring (String.length a + k) m (a ++ t) = substring k m t.
Proof. induction a as [| c a IH]; simpl; [reflexivity | exact IH]. Qed.

Lemma substring_all (b : string) : substring 0 (String.length b) b = b.
Proof. induction b as [| c b IH]; simpl; [reflexivity | rewrite IH; reflexivity]. Qed.

Lemma string_length_app (a b : string) :
  String.length (a ++ b) = (String.length a + String.length b)%nat.
Proof. induction a as [| c a IH]; simpl; [reflexivity | rewrite IH; reflexivity]. Qed.

Lemma substring_0_length (n : nat) (s : string) :
  String.length (substring 0 n s) = Nat.min n (String.length s).
Proof.
  revert n. induction s as [| c s IH]; intros [| n]; simpl; try reflexivity.
  rewrite IH. reflexivity.
Qed.

(** X6.  A length configured as the decimal string of a [usize] is used as
    is, and a range "lo:hi" of two such strings gives the draw
    [gen_range(lo..=hi)] when [lo <= hi] and panics (no length) when
    [lo > hi]: [get_response_length] reads back what [to_string] writes. *)
Theorem get_response_length_decimal (g : N -> N -> N) (a : Args) (n lo hi : N) :
  (n < usize_bound)%N -> (lo < usize_bound)%N -> (hi < usize_bound)%N ->
  (response_length a = Some (N_to_string n) -> get_response_length g a = Some n) /\
  (response_length a = Some (N_to_string lo ++ ":" ++ N_to_string hi)%string ->
     get_response_length g a = if (lo <=? hi)%N then Some (g lo hi) else None).
Proof.
  intros Hn Hlo Hhi. split; intros E; unfold get_response_length; rewrite E.
  - unfold N_to_string at 1. rewrite index_colon_uint_none.
    unfold parse_usize_or. fold (N_to_string n). rewrite parse_usize_N_to_string by exact Hn.
    reflexivity.
  - unfold N_to_string at 1. rewrite index_colon_uint. fold (N_to_string lo).
    rewrite substring_prefix.
    replace (S (String.length (N_to_string lo)))
      with (String.length (N_to_string lo) + 1)%nat by lia.
    rewrite substring_skip. simpl substring.
    rewrite string_length_app. simpl String.length.
    replace (String.length (N_to_string lo) + S (String.length (N_to_string hi))
             - (String.length (N_to_string lo) + 1))%nat
      with (String.length (N_to_string hi)) by lia.
    rewrite substring_all. unfold parse_usize_or.
    rewrite !parse_usize_N_to_string by assumption. reflexivity.
Qed.

(** The default length "250" and the range "10:100". *)
Lemma get_response_length_decimal_witness :
  (250 < usize_bound)%N /\ (10 < usize_bound)%N /\ (100 < usize_bound)%N /\
  get_response_length (fun lo _ => lo) (mkArgs (Some "250") None None 500 30000) = Some 250%N /\
  get_response_length (fun lo _ => lo) (mkArgs (Some "10:100") None None 500 30000) = Some 10%N.
Proof.
  assert (B1 : (250 < usize_bound)%N) by (vm_compute; reflexivity).
  assert (B2 : (10 < usize_bound)%N) by (vm_compute; reflexivity).
  assert (B3 : (100 < usize_bound)%N) by (vm_compute; reflexivity).
  split; [exact B1 | split; [exact B2 | split; [exact B3 | split]]].
  - apply (proj1 (get_response_length_decimal (fun lo _ => lo)
                    (mkArgs (Some "250") None None 500 30000) 250 10 100 B1 B2 B3)).
    reflexivity.
  - apply (proj2 (get_response_length_decimal (fun lo _ => lo)
                    (mkArgs (Some "10:100") None None 500 30000) 250 10 100 B1 B2 B3)).
    reflexivity.
Defined.

(** X7.  The generated content is the [lipsum] text of [L / 5] words cut
    at [L] bytes: its length is the smaller of [L] and the length of that
    text, so it is never longer than the requested length. *)
Theorem generate_lorem_content_length (chain : nat -> string) (L : N) :
  String.length (generate_lorem_content chain L)
  = Nat.min (N.to_nat L) (String.length (lipsum chain (L / 5))).
Proof.
  unfold generate_lorem_content. destruct (N.eqb_spec L 0) as [-> | HL].
  - reflexivity.
  - unfold truncate. apply substring_0_length.
Qed.

(* ------------------------------------------------------------------ *)
(** ** Further properties of the two streams *)

Lemma list_ascii_of_string_app (a b : string) :
  list_ascii_of_string (a ++ b)%string = list_ascii_of_string a ++ list_ascii_of_string b.
Proof. induction a as [| c a IH]; simpl; [reflexivity | rewrite IH; reflexivity]. Qed.

Lemma length_list_ascii_of_string (s : string) :
  length (list_ascii_of_string s) = String.length s.
Proof. induction s as [| c s IH]; simpl; [reflexivity | rewrite IH; reflexivity]. Qed.

Lemma length_string_of_list_ascii (l : list ascii) :
  String.length (string_of_list_ascii l) = length l.
Proof. induction l as [| c l IH]; simpl; [reflexivity | rewrite IH; reflexivity]. Qed.

Lemma non_whitespace_app (a b : list ascii) :
  non_whitespace (a ++ b) = non_whitespace a ++ non_whitespace b.
Proof. unfold non_whitespace. apply filter_app. Qed.

Lemma flat_map_of_map {A B C} (f : B -> list C) (g : A -> B) (l : list A) :
  flat_map f (map g l) = flat_map (fun x => f (g x)) l.
Proof. induction l as [| x l IH]; simpl; [reflexivity | rewrite IH; reflexivity]. Qed.

Lemma non_whitespace_cons_ws (c : ascii) (l : list ascii) :
  is_whitespace c = true -> non_whitespace (c :: l) = non_whitespace l.
Proof. intros H. unfold non_whitespace. simpl. rewrite H. reflexivity. Qed.

Lemma non_whitespace_cons (c : ascii) (l : list ascii) :
  is_whitespace c = false -> non_whitespace (c :: l) = c :: non_whitespace l.
Proof. intros H. unfold non_whitespace. simpl. rewrite H. reflexivity. Qed.

Lemma split_ws_aux_text (s : string) : forall cur,
  non_whitespace (flat_map (fun w => list_ascii_of_string (w ++ " ")%string)
                    (split_ws_aux cur s))
  = non_whitespace (list_ascii_of_string cur) ++ non_whitespace (list_ascii_of_string s).
Proof.
  induction s as [| c s IH]; intros cur; cbn [split_ws_aux].
  - destruct cur as [| c0 r] eqn:Ec; [reflexivity |]. rewrite <- Ec.
    cbn [flat_map]. rewrite app_nil_r, list_ascii_of_string_app, non_whitespace_app.
    reflexivity.
  - cbn [list_ascii_of_string]. destruct (is_whitespace c) eqn:Ews.
    + rewrite (non_whitespace_cons_ws c _ Ews).
      destruct cur as [| c0 r] eqn:Ec.
      * rewrite IH. reflexivity.
      * rewrite <- Ec. cbn [flat_map].
        rewrite non_whitespace_app, IH, list_ascii_of_string_app, non_whitespace_app.
        rewrite <- app_assoc. reflexivity.
    + rewrite (non_whitespace_cons c _ Ews), IH, list_ascii_of_string_app,
        non_whitespace_app, <- app_assoc.
      cbn [list_ascii_of_string]. rewrite (non_whitespace_cons c _ Ews). reflexivity.
Qed.

Lemma split_ws_aux_words (s : string) : forall cur,
  forallb (fun c => negb (is_whitespace c)) (list_ascii_of_string cur) = true ->
  Forall (fun w => w <> ""%string /\
                   forallb (fun c => negb (is_whitespace c)) (list_ascii_of_string w) = true)
    (split_ws_aux cur s).
Proof.
  induction s as [| c s IH]; intros cur Hcur; simpl.
  - destruct cur as [| c0 r]; [constructor |].
    constructor; [split; [discriminate | exact Hcur] | constructor].
  - destruct (is_whitespace c) eqn:Ews.
    + destruct cur as [| c0 r]; [apply IH; reflexivity |].
      constructor; [split; [discriminate | exact Hcur] | apply IH; reflexivity].
    + apply IH. rewrite list_ascii_of_string_app, forallb_app, Hcur. simpl.
      rewrite Ews. reflexivity.
Qed.

(** X8.  A Protocol A stream delivers the content word by word: its
    [delta.content] strings are the words of [split_whitespace], in order,
    each followed by one space; no word is empty or contains whitespace;
    and the deltas put together hold exactly the non-whitespace bytes of
    the content, in order (only whitespace is normalised). *)
Theorem chat_stream_delivers_content_words (id : string) (created : N) (model : string)
  (content : string) (usage : Usage) :
  let ds := chat_deltas (chat_stream_events id created model content usage) in
  ds = map (fun w => (w ++ " ")%string) (split_whitespace content) /\
  Forall (fun w => w <> ""%string /\
                   forallb (fun c => negb (is_whitespace c)) (list_ascii_of_string w) = true)
    (split_whitespace content) /\
  non_whitespace (flat_map list_ascii_of_string ds)
  = non_whitespace (list_ascii_of_string content).
Proof.
  intros ds.
  assert (Eds : ds = map (fun w => (w ++ " ")%string) (split_whitespace content)).
  { subst ds. unfold chat_deltas, chat_stream_events.
    rewrite !flat_map_app. simpl. rewrite app_nil_r.
    induction (split_whitespace content) as [| w ws IH]; simpl; [reflexivity |].
    rewrite IH. reflexivity. }
  split; [exact Eds | split].
  - apply split_ws_aux_words. reflexivity.
  - rewrite Eds, flat_map_of_map. unfold split_whitespace.
    rewrite split_ws_aux_text. reflexivity.
Qed.

Lemma chunks5_props (n : nat) : forall l, (length l <= n)%nat ->
  concat (chunks5 l) = l /\
  Forall (fun ch => (1 <= length ch <= 5)%nat) (chunks5 l) /\
  length (chunks5 l) = ((length l + 4) / 5)%nat.
Proof.
  induction n as [| n IH]; intros l Hl.
  - destruct l; [simpl; repeat split; constructor | simpl in Hl; lia].
  - destruct l as [| a [| b [| c [| d [| e rest]]]]];
      try (simpl; repeat split; repeat constructor; simpl; lia).
    destruct (IH rest) as [Hc [Hf Hn]]; [simpl in Hl; lia |].
    simpl chunks5. split; [| split].
    + simpl. rewrite Hc. reflexivity.
    + constructor; [simpl; lia | exact Hf].
    + cbn [length]. rewrite Hn.
      replace (S (S (S (S (S (length rest))))) + 4)%nat
        with ((length rest + 4) + 1 * 5)%nat by lia.
      rewrite Nat.div_add by lia. lia.
Qed.

Lemma resp_text_deltas_app (l1 l2 : list RespSse) :
  resp_text_deltas (l1 ++ l2) = resp_text_deltas l1 ++ resp_text_deltas l2.
Proof. unfold resp_text_deltas. apply flat_map_app. Qed.

Lemma response_snapshots_app (l1 l2 : list RespSse) :
  response_snapshots (l1 ++ l2) = response_snapshots l1 ++ response_snapshots l2.
Proof. unfold response_snapshots. apply flat_map_app. Qed.

Lemma delta_events_text (ctx : StreamCtx) (chunks : list (list ascii)) :
  forall k n, resp_text_deltas (delta_events ctx k n chunks) = map string_of_list_ascii chunks.
Proof.
  induction chunks as [| c rest IH]; intros k n; simpl; [reflexivity |].
  rewrite IH. reflexivity.
Qed.

Lemma delta_events_snapshots (ctx : StreamCtx) (chunks : list (list ascii)) :
  forall k n, response_snapshots (delta_events ctx k n chunks) = [].
Proof. induction chunks as [| c rest IH]; intros k n; simpl; auto. Qed.

Lemma responses_stream_text (ctx : StreamCtx) :
  resp_text_deltas (responses_stream_events ctx)
  = map string_of_list_ascii (chunks5 (list_ascii_of_string (sc_content ctx))).
Proof.
  unfold responses_stream_events, responses_stream_body.
  cbv [gen_bind gen_ret get_sequence_number get_response yield
       incr_sequence_number modify_response
       gen_sequence_number gen_response gen_yielded].
  rewrite delta_loop_run. cbn [gen_sequence_number gen_response gen_yielded snd].
  rewrite !resp_text_deltas_app, delta_events_text.
  unfold resp_text_deltas. cbn [flat_map app]. rewrite !app_nil_r. reflexivity.
Qed.

(** X9.  In a Protocol B stream the [response.output_text.delta] events
    carry the content in order and entire: their deltas put together are
    the content's bytes, each delta holds 1 to 5 bytes, and there are
    [ceil(len / 5)] of them. *)
Theorem responses_stream_deltas_cover_content (ctx : StreamCtx) :
  let ds := resp_text_deltas (responses_stream_events ctx) in
  flat_map list_ascii_of_string ds = list_ascii_of_string (sc_content ctx) /\
  Forall (fun d => (1 <= String.length d <= 5)%nat) ds /\
  length ds = ((String.length (sc_content ctx) + 4) / 5)%nat.
Proof.
  intros ds. subst ds. rewrite responses_stream_text.
  destruct (chunks5_props _ (list_ascii_of_string (sc_content ctx)) (le_n _))
    as [Hc [Hf Hn]].
  split; [| split].
  - rewrite flat_map_of_map, flat_map_concat_map.
    rewrite (map_ext _ (fun x => x) list_ascii_of_string_of_list_ascii), map_id. exact Hc.
  - apply Forall_map. eapply Forall_impl; [| exact Hf].
    intros ch H. rewrite length_string_of_list_ascii. exact H.
  - rewrite length_map, Hn, length_list_ascii_of_string. reflexivity.
Qed.

(** X10.  The response snapshots a Protocol B stream embeds are, in order:
    the initial response twice ([response.created], [response.in_progress]:
    status "in_progress", no output, no usage), then, in
    [response.completed], the finished response: status "completed", the
    reasoning item and the completed assistant message holding the whole
    content as one [output_text] part, and the usage with the 128 mock
    reasoning tokens. *)
Theorem responses_stream_snapshots (ctx : StreamCtx) :
  response_snapshots (responses_stream_events ctx) =
  [initial_stream_response ctx; initial_stream_response ctx;
   mkResponse (sc_response_id ctx) (sc_created_at ctx) (sc_instructions ctx)
     (sc_model ctx) "response"
     [ItemReasoning (mkResponseReasoningItem (sc_reasoning_item_id ctx) "reasoning"
                       [] None None None);
      ItemMessage (mkResponseOutputMessage (sc_message_id ctx) "message"
                     [output_text (sc_content ctx)] "assistant" "completed")]
     "completed"
     (Some (mkResponseUsage (sc_prompt_tokens ctx) (mkInputTokensDetails 0)
              (add_u32 (sc_completion_tokens ctx) 128) (mkOutputTokensDetails 128)
              (add_u32 (sc_total_tokens ctx) 128)))].
Proof.
  unfold responses_stream_events, responses_stream_body.
  cbv [gen_bind gen_ret get_sequence_number get_response yield
       incr_sequence_number modify_response
       gen_sequence_number gen_response gen_yielded].
  rewrite delta_loop_run. cbn [gen_sequence_number gen_response gen_yielded snd].
  rewrite !response_snapshots_app, delta_events_snapshots.
  reflexivity.
Qed.

(* ------------------------------------------------------------------ *)
(** ** Further properties of the handlers *)

Lemma get_rate_limit_headers_names (now : Z) (st : ServerState) :
  map fst (fst (get_rate_limit_headers now st)) = ratelimit_six.
Proof. reflexivity. Qed.

Lemma get_rate_limit_headers_state (now : Z) (st : ServerState) :
  snd (get_rate_limit_headers now st)
  = mkServerState (args st) (prune_front (sixty_seconds_ago now) (request_timestamps st))
      (prune_front_tokens (sixty_seconds_ago now) (token_usage_timestamps st)).
Proof. reflexivity. Qed.

Lemma json_outcome_headers (s : N) (hs : HeaderMap) (b : Body) (st : ServerState) :
  map fst hs = ratelimit_six -> is_sse_body b = false ->
  ratelimit_headers_match_body (Some (json_response s hs b, st)).
Proof.
  intros H Hb. unfold ratelimit_headers_match_body, ratelimit_header_names, json_response.
  cbn [body headers]. rewrite Hb. cbn [map fst]. rewrite H. reflexivity.
Qed.

Lemma sse_outcome_headers (b : Body) (st : ServerState) :
  is_sse_body b = true -> ratelimit_headers_match_body (Some (sse_response b, st)).
Proof.
  intros Hb. unfold ratelimit_headers_match_body, sse_response. cbn [body].
  rewrite Hb. reflexivity.
Qed.

Ltac json_headers_step :=
  match goal with
  | |- context [get_rate_limit_headers ?n ?s] =>
      let Hn := fresh "Hn" in
      pose proof (get_rate_limit_headers_names n s) as Hn;
      destruct (get_rate_limit_headers n s) as [? ?]; cbv beta iota zeta;
      apply json_outcome_headers; [exact Hn | reflexivity]
  end.

Lemma chat_token_stage_headers (env : Env) (st : ServerState)
  (p : ChatCompletionRequest) (content : string) (pt ct : N) :
  ratelimit_headers_match_body (chat_completions_token_stage env st p content pt ct).
Proof.
  unfold chat_completions_token_stage. cbv beta iota zeta.
  destruct (check_token_limit_exceeded _ _ _) as [[|] st1]; cbv beta iota zeta.
  - json_headers_step.
  - destruct (chat_stream p) as [[|]|]; cbv beta iota zeta.
    + apply sse_outcome_headers. reflexivity.
    + json_headers_step.
    + json_headers_step.
Qed.

Lemma responses_token_stage_headers (env : Env) (st : ServerState)
  (p : ResponsesRequest) (content : string) (pt ct : N) :
  ratelimit_headers_match_body (responses_token_stage env st p content pt ct).
Proof.
  unfold responses_token_stage. cbv beta iota zeta.
  destruct (check_token_limit_exceeded _ _ _) as [[|] st1]; cbv beta iota zeta.
  - json_headers_step.
  - match goal with
    | |- context [get_rate_limit_headers ?n ?s] =>
        pose proof (get_rate_limit_headers_names n s) as Hn;
        destruct (get_rate_limit_headers n s) as [hs st2]; cbv beta iota zeta
    end.
    destruct (resp_stream p) as [[|]|]; cbv beta iota zeta.
    + apply sse_outcome_headers. reflexivity.
    + apply json_outcome_headers; [exact Hn | reflexivity].
    + apply json_outcome_headers; [exact Hn | reflexivity].
Qed.

(** X11.  Every response of both handlers carries the six
    [x-ratelimit-*] headers, in the order [get_rate_limit_headers] inserts
    them, except the streaming responses, which carry none: whatever the
    configuration, the state, the request and the random draws. *)
Theorem handlers_ratelimit_headers_unless_streaming (env : Env) (st : ServerState)
  (p : ChatCompletionRequest) (q : ResponsesRequest) :
  ratelimit_headers_match_body (chat_completions env st p) /\
  ratelimit_headers_match_body (responses env st q).
Proof.
  split.
  - unfold chat_completions. cbv beta iota zeta.
    destruct (check_request_limit_exceeded _ _) as [[|] st1]; cbv beta iota zeta.
    + json_headers_step.
    + destruct (should_return_error _ _) as [code|]; cbv beta iota zeta.
      * json_headers_step.
      * destruct (get_response_length _ _) as [len|]; cbv beta iota zeta; [| exact I].
        destruct (len =? 0)%N.
        -- json_headers_step.
        -- apply chat_token_stage_headers.
  - unfold responses. cbv beta iota zeta.
    destruct (check_request_limit_exceeded _ _) as [[|] st1]; cbv beta iota zeta.
    + json_headers_step.
    + destruct (should_return_error _ _) as [code|]; cbv beta iota zeta.
      * json_headers_step.
      * destruct (get_response_length _ _) as [len|]; cbv beta iota zeta; [| exact I].
        destruct (len =? 0)%N.
        -- json_headers_step.
        -- apply responses_token_stage_headers.
Qed.

Lemma rate_limit_body_not_simulated (m : string) (code : N) :
  BodyJson (rate_limit_error_body m) <> BodyJson (simulated_error_body code).
Proof. unfold rate_limit_error_body, simulated_error_body. discriminate. Qed.

Lemma chat_token_stage_bodies (env : Env) (st : ServerState)
  (p : ChatCompletionRequest) (content : string) (pt ct : N) :
  match chat_completions_token_stage env st p content pt ct with
  | Some (r, _) => (forall code, body r <> BodyJson (simulated_error_body code)) /\
                   body r <> BodyJson (JObj [])
  | None => True
  end.
Proof.
  unfold chat_completions_token_stage. cbv beta iota zeta.
  destruct (check_token_limit_exceeded _ _ _) as [[|] st1]; cbv beta iota zeta.
  - destruct (get_rate_limit_headers _ _); cbn [body json_response].
    split; [apply rate_limit_body_not_simulated | discriminate].
  - destruct (chat_stream p) as [[|]|]; cbv beta iota zeta;
      try destruct (get_rate_limit_headers _ _); cbn [body json_response sse_response];
      (split; [intros code; discriminate | discriminate]).
Qed.

Lemma responses_token_stage_bodies (env : Env) (st : ServerState)
  (p : ResponsesRequest) (content : string) (pt ct : N) :
  match responses_token_stage env st p content pt ct with
  | Some (r, _) => (forall code, body r <> BodyJson (simulated_error_body code)) /\
                   body r <> BodyJson (JObj [])
  | None => True
  end.
Proof.
  unfold responses_token_stage. cbv beta iota zeta.
  destruct (check_token_limit_exceeded _ _ _) as [[|] st1]; cbv beta iota zeta;
    destruct (get_rate_limit_headers _ _); cbv beta iota zeta.
  - cbn [body json_response].
    split; [apply rate_limit_body_not_simulated | discriminate].
  - destruct (resp_stream p) as [[|]|]; cbv beta iota zeta;
      cbn [body json_response sse_response];
      (split; [intros code; discriminate | discriminate]).
Qed.

(** The queues after the request has been counted and the headers read at
    the same instant. *)
Lemma counted_then_headers_queues (now : Z) (st : ServerState) :
  let c := sixty_seconds_ago now in
  request_timestamps (snd (get_rate_limit_headers now
     (increment_request_count now (snd (check_request_limit_exceeded now st)))))
  = prune_front c (request_timestamps st) ++ [now] /\
  token_usage_timestamps (snd (get_rate_limit_headers now
     (increment_request_count now (snd (check_request_limit_exceeded now st)))))
  = prune_front_tokens c (token_usage_timestamps st).
Proof.
  intros c. rewrite get_rate_limit_headers_state. cbn. fold c.
  rewrite prune_front_idem, prune_front_app_in by (subst c; apply sixty_seconds_ago_le).
  split; reflexivity.
Qed.

(** X13.  A simulated fault and an empty (204) answer are counted against
    the request quota but never against the token quota: after either, the
    request queue is the kept requests plus [now], and the token queue only
    lost its expired entries. *)
Theorem faults_and_empty_answers_count_request_only (env : Env) (st st' : ServerState)
  (r : HttpResponse) (p : ChatCompletionRequest) (q : ResponsesRequest) :
  (chat_completions env st p = Some (r, st') \/ responses env st q = Some (r, st')) ->
  ((exists code, body r = BodyJson (simulated_error_body code)) \/
   body r = BodyJson (JObj [])) ->
  let c := sixty_seconds_ago (clock env) in
  request_timestamps st' = prune_front c (request_timestamps st) ++ [clock env] /\
  token_usage_timestamps st' = prune_front_tokens c (token_usage_timestamps st).
Proof.
  intros H Hb c.
  pose proof (counted_then_headers_queues (clock env) st) as Hq. fold c in Hq.
  destruct (check_request_limit_exceeded (clock env) st) as [ex st1] eqn:Ec.
  cbn [snd] in Hq.
  destruct H as [H | H]; [unfold chat_completions in H | unfold responses in H];
    cbv beta iota zeta in H; rewrite Ec in H; cbv beta iota zeta in H.
  - destruct ex.
    + destruct (get_rate_limit_headers _ _); injection H as <- <-.
      destruct Hb as [[code Hb] | Hb]; cbn [body json_response] in Hb;
        [exfalso; exact (rate_limit_body_not_simulated _ _ Hb) | discriminate].
    + destruct (should_return_error _ _).
      * destruct (get_rate_limit_headers (clock env) (increment_request_count (clock env) st1))
          as [hs st2] eqn:Eg.
        injection H as <- <-. cbn [snd] in Hq. exact Hq.
      * destruct (get_response_length _ _) as [len|]; [| discriminate].
        destruct (len =? 0)%N.
        -- destruct (get_rate_limit_headers (clock env)
                      (increment_request_count (clock env) st1)) as [hs st2] eqn:Eg.
           injection H as <- <-. cbn [snd] in Hq. exact Hq.
        -- match type of H with
           | chat_completions_token_stage ?e ?s ?pp ?ct ?a ?b = _ =>
               pose proof (chat_token_stage_bodies e s pp ct a b) as Hs
           end.
           rewrite H in Hs. destruct Hs as [Hs1 Hs2].
           destruct Hb as [[code Hb] | Hb]; [exfalso; exact (Hs1 code Hb) | contradiction].
  - destruct ex.
    + destruct (get_rate_limit_headers _ _); injection H as <- <-.
      destruct Hb as [[code Hb] | Hb]; cbn [body json_response] in Hb;
        [exfalso; exact (rate_limit_body_not_simulated _ _ Hb) | discriminate].
    + destruct (should_return_error _ _).
      * destruct (get_rate_limit_headers (clock env) (increment_request_count (clock env) st1))
          as [hs st2] eqn:Eg.
        injection H as <- <-. cbn [snd] in Hq. exact Hq.
      * destruct (get_response_length _ _) as [len|]; [| discriminate].
        destruct (len =? 0)%N.
        -- destruct (get_rate_limit_headers (clock env)
                      (increment_request_count (clock env) st1)) as [hs st2] eqn:Eg.
           injection H as <- <-. cbn [snd] in Hq. exact Hq.
        -- match type of H with
           | responses_token_stage ?e ?s ?pp ?ct ?a ?b = _ =>
               pose proof (responses_token_stage_bodies e s pp ct a b) as Hs
           end.
           rewrite H in Hs. destruct Hs as [Hs1 Hs2].
           destruct Hb as [[code Hb] | Hb]; [exfalso; exact (Hs1 code Hb) | contradiction].
Qed.

(** With [error_code = 503] and [error_rate = 100], a first chat request
    gets the simulated 503 and is counted at [now] with no tokens. *)
Lemma faults_and_empty_answers_count_request_only_witness :
  match chat_completions sample_env (fresh_state always_503_args) (sample_chat_request false) with
  | Some (r, st') =>
      body r = BodyJson (simulated_error_body 503) /\
      request_timestamps st' = [clock sample_env] /\ token_usage_timestamps st' = []
  | None => False
  end.
Proof.
  destruct (chat_completions sample_env (fresh_state always_503_args)
              (sample_chat_request false)) as [[r st']|] eqn:E.
  2: { vm_compute in E. discriminate. }
  assert (Hb : body r = BodyJson (simulated_error_body 503)).
  { vm_compute in E. injection E as <- _. reflexivity. }
  split; [exact Hb |].
  exact (faults_and_empty_answers_count_request_only sample_env (fresh_state always_503_args)
           st' r (sample_chat_request false) (sample_responses_request false)
           (or_introl E) (or_introl (ex_intro _ 503%N Hb))).
Defined.

(* ------------------------------------------------------------------ *)
(** ** Identifiers *)

Lemma uint_to_string_inj (d1 : Decimal.uint) : forall d2,
  uint_to_string d1 = uint_to_string d2 -> d1 = d2.
Proof.
  induction d1; intros [] H; cbn [uint_to_string] in H; try discriminate; try reflexivity;
    injection H as H; f_equal; apply IHd1; exact H.
Qed.

Lemma hex_uint_to_string_inj (d1 : Hexadecimal.uint) : forall d2,
  hex_uint_to_string d1 = hex_uint_to_string d2 -> d1 = d2.
Proof.
  induction d1; intros [] H; cbn [hex_uint_to_string] in H; try discriminate;
    try reflexivity; injection H as H; f_equal; apply IHd1; exact H.
Qed.

Lemma N_to_string_inj (a b : N) : N_to_string a = N_to_string b -> a = b.
Proof.
  unfold N_to_string. intros H. apply uint_to_string_inj in H.
  rewrite <- (DecimalN.Unsigned.of_to a), <- (DecimalN.Unsigned.of_to b), H. reflexivity.
Qed.

Lemma N_to_hex_string_inj (a b : N) : N_to_hex_string a = N_to_hex_string b -> a = b.
Proof.
  unfold N_to_hex_string. intros H. apply hex_uint_to_string_inj in H.
  rewrite <- (HexadecimalN.Unsigned.of_to a), <- (HexadecimalN.Unsigned.of_to b), H.
  reflexivity.
Qed.

Lemma string_app_assoc (a b c : string) : ((a ++ b) ++ c)%string = (a ++ (b ++ c))%string.
Proof. induction a as [| x a IH]; simpl; [reflexivity | rewrite IH; reflexivity]. Qed.

Lemma string_app_cancel_l (p a b : string) : (p ++ a)%string = (p ++ b)%string -> a = b.
Proof.
  induction p as [| c p IH]; simpl; intros H; [exact H | injection H as H; apply IH, H].
Qed.

(** X14.  Two ids built from random draws are equal exactly when the draws
    are: [chatcmpl-<u32>] of the chat handler and [generate_id]'s
    [<prefix>_<hex u128>] both write the draw in a form that determines
    it (decimal, and lowercase hexadecimal without leading zeros). *)
Theorem ids_equal_iff_draws_equal (prefix : string) (a b : N) :
  (chat_completion_id a = chat_completion_id b <-> a = b) /\
  (Responses.generate_id prefix a = Responses.generate_id prefix b <-> a = b).
Proof.
  split; split; intros H; try (subst; reflexivity).
  - apply N_to_string_inj. exact (string_app_cancel_l "chatcmpl-" _ _ H).
  - apply N_to_hex_string_inj. unfold Responses.generate_id in H.
    rewrite <- !string_app_assoc in H. exact (string_app_cancel_l _ _ _ H).
Qed.

(* ------------------------------------------------------------------ *)
(** ** Queue order through the handlers *)

Lemma queues_ordered_upto_mono (now now' : Z) (st : ServerState) :
  (now <= now')%Z -> queues_ordered_upto now st -> queues_ordered_upto now' st.
Proof.
  intros Hn [H1 [H2 [H3 H4]]]. repeat split; try assumption;
    (eapply Forall_impl; [| eassumption]); simpl; intros; lia.
Qed.

Lemma ordered_incr (n : Z) (s : ServerState) :
  queues_ordered_upto n s -> queues_ordered_upto n (increment_request_count n s).
Proof. intros H. exact (proj1 (ordered_upto_ops n n 0 s (Z.le_refl n) H)). Qed.

Lemma ordered_add (n : Z) (t : N) (s : ServerState) :
  queues_ordered_upto n s -> queues_ordered_upto n (add_token_usage n t s).
Proof. intros H. exact (proj1 (proj2 (ordered_upto_ops n n t s (Z.le_refl n) H))). Qed.

Lemma ordered_headers (n : Z) (s : ServerState) :
  queues_ordered_upto n s -> queues_ordered_upto n (snd (get_rate_limit_headers n s)).
Proof.
  intros H. exact (proj1 (proj2 (proj2 (ordered_upto_ops n n 0 s (Z.le_refl n) H)))).
Qed.

Lemma ordered_check_request (n : Z) (s : ServerState) :
  queues_ordered_upto n s ->
  queues_ordered_upto n (snd (check_request_limit_exceeded n s)).
Proof.
  intros H.
  exact (proj1 (proj2 (proj2 (proj2 (ordered_upto_ops n n 0 s (Z.le_refl n) H))))).
Qed.

Lemma ordered_check_token (n : Z) (t : N) (s : ServerState) :
  queues_ordered_upto n s ->
  queues_ordered_upto n (snd (check_token_limit_exceeded n t s)).
Proof.
  intros H.
  exact (proj2 (proj2 (proj2 (proj2 (ordered_upto_ops n n t s (Z.le_refl n) H))))).
Qed.

Ltac ordered_auto :=
  first [ assumption
        | apply ordered_incr; ordered_auto
        | apply ordered_add; ordered_auto ].

Ltac ordered_step :=
  match goal with
  | |- context [check_request_limit_exceeded ?n ?s] =>
      let H1 := fresh "Ho" in
      pose proof (ordered_check_request n s ltac:(ordered_auto)) as H1;
      destruct (check_request_limit_exceeded n s) as [[|] ?];
      cbn [snd] in H1; cbv beta iota zeta
  | |- context [check_token_limit_exceeded ?n ?t ?s] =>
      let H1 := fresh "Ho" in
      pose proof (ordered_check_token n t s ltac:(ordered_auto)) as H1;
      destruct (check_token_limit_exceeded n t s) as [[|] ?];
      cbn [snd] in H1; cbv beta iota zeta
  | |- context [get_rate_limit_headers ?n ?s] =>
      let H1 := fresh "Ho" in
      pose proof (ordered_headers n s ltac:(ordered_auto)) as H1;
      destruct (get_rate_limit_headers n s) as [? ?];
      cbn [snd] in H1; cbv beta iota zeta
  end.

Lemma chat_token_stage_ordered (env : Env) (st : ServerState)
  (p : ChatCompletionRequest) (content : string) (pt ct : N) :
  queues_ordered_upto (clock env) st ->
  match chat_completions_token_stage env st p content pt ct with
  | Some (_, s) => queues_ordered_upto (clock env) s
  | None => True
  end.
Proof.
  intros H. unfold chat_completions_token_stage. cbv beta iota zeta.
  ordered_step.
  - ordered_step. assumption.
  - destruct (chat_stream p) as [[|]|]; cbv beta iota zeta;
      [ordered_auto | ordered_step; assumption ..].
Qed.

Lemma responses_token_stage_ordered (env : Env) (st : ServerState)
  (p : ResponsesRequest) (content : string) (pt ct : N) :
  queues_ordered_upto (clock env) st ->
  match responses_token_stage env st p content pt ct with
  | Some (_, s) => queues_ordered_upto (clock env) s
  | None => True
  end.
Proof.
  intros H. unfold responses_token_stage. cbv beta iota zeta.
  ordered_step.
  - ordered_step. assumption.
  - ordered_step. destruct (resp_stream p) as [[|]|]; cbv beta iota zeta; assumption.
Qed.

Lemma chat_completions_ordered (env : Env) (st : ServerState) (p : ChatCompletionRequest) :
  queues_ordered_upto (clock env) st ->
  match chat_completions env st p with
  | Some (_, s) => queues_ordered_upto (clock env) s
  | None => True
  end.
Proof.
  intros H. unfold chat_completions. cbv beta iota zeta.
  ordered_step.
  - ordered_step. assumption.
  - destruct (should_return_error _ _); cbv beta iota zeta.
    + ordered_step. assumption.
    + destruct (get_response_length _ _) as [len|]; [| exact I].
      destruct (len =? 0)%N.
      * ordered_step. assumption.
      * apply chat_token_stage_ordered. ordered_auto.
Qed.

Lemma responses_ordered (env : Env) (st : ServerState) (q : ResponsesRequest) :
  queues_ordered_upto (clock env) st ->
  match responses env st q with
  | Some (_, s) => queues_ordered_upto (clock env) s
  | None => True
  end.
Proof.
  intros H. unfold responses. cbv beta iota zeta.
  ordered_step.
  - ordered_step. assumption.
  - destruct (should_return_error _ _); cbv beta iota zeta.
    + ordered_step. assumption.
    + destruct (get_response_length _ _) as [len|]; [| exact I].
      destruct (len =? 0)%N.
      * ordered_step. assumption.
      * apply responses_token_stage_ordered. ordered_auto.
Qed.

(** X15.  Whatever path a request takes through either handler (rejected
    on either quota, simulated fault, empty answer, complete or streamed
    answer), a clock that does not go backwards keeps both queues of the
    shared state chronologically ordered, with no entry later than the
    handler's [now]. *)
Theorem handlers_keep_queues_ordered (env : Env) (now : Z) (st st' : ServerState)
  (r : HttpResponse) (p : ChatCompletionRequest) (q : ResponsesRequest) :
  (now <= clock env)%Z -> queues_ordered_upto now st ->
  (chat_completions env st p = Some (r, st') \/ responses env st q = Some (r, st')) ->
  queues_ordered_upto (clock env) st'.
Proof.
  intros Hn Ho H. apply (queues_ordered_upto_mono now (clock env) st Hn) in Ho.
  destruct H as [H | H].
  - pose proof (chat_completions_ordered env st p Ho) as Hs. rewrite H in Hs. exact Hs.
  - pose proof (responses_ordered env st q Ho) as Hs. rewrite H in Hs. exact Hs.
Qed.

(** Requests at 0 s and 30 s and 5 tokens at 0 s, ordered up to 31 s: a
    streamed Protocol B answer at 100 s leaves the queues ordered up to
    100 s. *)
Lemma handlers_keep_queues_ordered_witness :
  queues_ordered_upto 31000000000 two_requests_state /\
  match responses sample_env two_requests_state (sample_responses_request true) with
  | Some (_, st') => queues_ordered_upto (clock sample_env) st'
  | None => False
  end.
Proof.
  assert (Ho : queues_ordered_upto 31000000000 two_requests_state).
  { unfold queues_ordered_upto, two_requests_state; simpl.
    repeat split; repeat constructor; lia. }
  split; [exact Ho |].
  destruct (responses sample_env two_requests_state (sample_responses_request true))
    as [[r st']|] eqn:E; [| vm_compute in E; discriminate].
  exact (handlers_keep_queues_ordered sample_env 31000000000 two_requests_state st' r
           (sample_chat_request true) (sample_responses_request true)
           ltac:(unfold sample_env; cbn [clock]; lia) Ho (or_intror E)).
Defined.
